(** * cmdux: text layout, box and table rendering

    A shallow embedding of the layout engine of cmdux (package [core]:
    [PadText], [WrapText], [TruncateText], [RepeatChar], [StripANSI],
    [MeasureText]) and of the two composers built on it (package [ui]:
    [Box] and [Table]).

    Conventions of the embedding.
    - A Go [string] is modelled by the sequence of its runes (code points),
      [gostring := list rune]; every loop of the sources that ranges over a
      string ranges over runes, and the sources never index bytes.
    - A Go [int] is modelled by [Z].  All integers handled here are column
      counts bounded by string lengths, far from 2^63, so no wrap-around
      is written out; Go's truncating division is [Z.quot].
    - A Go panic ([strings.Repeat] with a negative count) is [None] in the
      option monad; every function that builds strings with
      [strings.Repeat] lives in that monad. *)

From Stdlib Require Import Ascii String.
From Stdlib Require Import ZArith List Lia Bool.
Import ListNotations.
Local Open Scope Z_scope.

Definition rune := Z.
Definition gostring := list rune.

(** ASCII literals: the runes of a string made of ASCII characters. *)
Fixpoint gostr (s : string) : gostring :=
  match s with
  | EmptyString => []
  | String c s' => Z.of_nat (nat_of_ascii c) :: gostr s'
  end.

Definition nonempty (s : gostring) : bool :=
  match s with [] => false | _ :: _ => true end.

(** The zero values of [var currentLine string] and [var lines []string]. *)
Definition emptyLine : gostring := [].
Definition emptyLines : list gostring := [].

(** The option monad carries Go panics. *)
Definition bind {A B : Type} (m : option A) (k : A -> option B) : option B :=
  match m with Some a => k a | None => None end.

Notation "x <- m ;; k" := (bind m (fun x => k))
  (at level 61, m at next level, right associativity).

Fixpoint mapM {A B : Type} (f : A -> option B) (l : list A) : option (list B) :=
  match l with
  | [] => Some []
  | a :: l' => b <- f a ;; bs <- mapM f l' ;; Some (b :: bs)
  end.

(** The loop [for i, a := range l], from index [i] on, collecting one
    value per element. *)
Fixpoint forEach {A B : Type} (f : nat -> A -> option B) (i : nat) (l : list A)
    : option (list B) :=
  match l with
  | [] => Some []
  | a :: l' => b <- f i a ;; bs <- forEach f (S i) l' ;; Some (b :: bs)
  end.

(** ** Package [strings] of the Go standard library *)
Module strings.

(** [strings.Repeat(s, count)]: panics when [count] is negative. *)
Definition Repeat (s : gostring) (count : Z) : option gostring :=
  if count <? 0 then None
  else Some (List.concat (List.repeat s (Z.to_nat count))).

(** [strings.Join(elems, sep)]. *)
Fixpoint Join (elems : list gostring) (sep : gostring) : gostring :=
  match elems with
  | [] => []
  | [e] => e
  | e :: rest => e ++ sep ++ Join rest sep
  end.

(** [strings.Split(s, sep)] for a separator of one rune (the sources only
    split on the line feed): always at least one piece. *)
Fixpoint Split (s : gostring) (sep : rune) : list gostring :=
  match s with
  | [] => [[]]
  | r :: s' =>
      if r =? sep then [] :: Split s' sep
      else match Split s' sep with
           | piece :: pieces => (r :: piece) :: pieces
           | [] => [[r]]
           end
  end.

(** [unicode.IsSpace]: the Latin-1 spaces and the White_Space property. *)
Definition IsSpace (r : rune) : bool :=
  ((9 <=? r) && (r <=? 13)) || (r =? 32) || (r =? 133) || (r =? 160)
  || (r =? 5760) || ((8192 <=? r) && (r <=? 8202))
  || (r =? 8232) || (r =? 8233) || (r =? 8239) || (r =? 8287)
  || (r =? 12288).

(** [strings.Fields(s)]: the maximal runs of non-space runes, in order. *)
Fixpoint Fields (s : gostring) : list gostring :=
  match s with
  | [] => []
  | r :: s' =>
      if IsSpace r then Fields s'
      else match s' with
           | [] => [[r]]
           | r' :: _ =>
               if IsSpace r' then [r] :: Fields s'
               else match Fields s' with
                    | word :: words => (r :: word) :: words
                    | [] => [[r]]
                    end
           end
  end.

End strings.

(** ** Package [runewidth] (github.com/mattn/go-runewidth) *)
Module runewidth.

(** Modelled from the spec: go-runewidth is an imported package whose
    source is not part of the repository.  Its width table is a parameter:
    a [Condition] gives every rune 0, 1 or 2 columns (section 4.1 of the
    specification), and is the narrow (non East Asian) condition that the
    repository's own tests assume: printable ASCII, the ellipsis and the
    box-drawing block take one column. *)
Class Condition := {
  RuneWidth : rune -> Z;
  RuneWidth_range : forall r, 0 <= RuneWidth r <= 2;
  RuneWidth_ascii : forall r, 32 <= r < 127 -> RuneWidth r = 1;
  RuneWidth_ellipsis : RuneWidth 8230 = 1;
  RuneWidth_box : forall r, 9472 <= r <= 9599 -> RuneWidth r = 1
}.

Section Width.
Context {cond : Condition}.

(** Modelled from the spec: [runewidth.StringWidth], the sum of the
    widths of the code points (section 4.1, codepoint model). *)
Fixpoint StringWidth (s : gostring) : Z :=
  match s with
  | [] => 0
  | r :: s' => RuneWidth r + StringWidth s'
  end.

(** The loop of [Truncate]: runes are kept while the running width
    stays within [w]; it stops at the first rune that does not fit. *)
Fixpoint truncateLoop (r : gostring) (width w : Z) : gostring :=
  match r with
  | [] => []
  | c :: r' =>
      let cw := RuneWidth c in
      if width + cw >? w then []
      else c :: truncateLoop r' (width + cw) w
  end.

(** Modelled from the spec: [runewidth.Truncate(s, w, tail)] returns
    [s] when it fits, else the longest prefix whose width plus the
    tail's width is within [w], followed by the tail. *)
Definition Truncate (s : gostring) (w : Z) (tail : gostring) : gostring :=
  if StringWidth s <=? w then s
  else truncateLoop s 0 (w - StringWidth tail) ++ tail.

End Width.

(** A concrete narrow condition, for running the model: control
    characters and combining marks take no column, the East Asian wide
    and emoji blocks take two, everything else one. *)
Definition narrowWidth (r : rune) : Z :=
  if (r <? 32) || ((127 <=? r) && (r <? 160)) then 0
  else if (768 <=? r) && (r <=? 879) then 0
  else if ((4352 <=? r) && (r <=? 4447))
       || ((11904 <=? r) && (r <=? 42191))
       || ((44032 <=? r) && (r <=? 55203))
       || ((63744 <=? r) && (r <=? 64255))
       || ((65072 <=? r) && (r <=? 65135))
       || ((65280 <=? r) && (r <=? 65376))
       || ((65504 <=? r) && (r <=? 65510))
       || ((127744 <=? r) && (r <=? 129535))
       || ((131072 <=? r) && (r <=? 262141)) then 2
  else 1.

End runewidth.

#[export] Instance narrow : runewidth.Condition.
Proof.
  refine {| runewidth.RuneWidth := runewidth.narrowWidth |}.
  - intro r. unfold runewidth.narrowWidth.
    repeat match goal with |- context [if ?b then _ else _] => destruct b end; lia.
  - intros r Hr. unfold runewidth.narrowWidth.
    replace (r <? 32) with false by lia.
    replace (127 <=? r) with false by lia.
    replace (768 <=? r) with false by lia.
    replace (4352 <=? r) with false by lia.
    replace (11904 <=? r) with false by lia.
    replace (44032 <=? r) with false by lia.
    replace (63744 <=? r) with false by lia.
    replace (65072 <=? r) with false by lia.
    replace (65280 <=? r) with false by lia.
    replace (65504 <=? r) with false by lia.
    replace (127744 <=? r) with false by lia.
    replace (131072 <=? r) with false by lia.
    reflexivity.
  - reflexivity.
  - intros r Hr. unfold runewidth.narrowWidth.
    replace (r <? 32) with false by lia.
    replace (r <? 160) with false by lia.
    replace (r <=? 879) with false by lia.
    replace (r <=? 4447) with false by lia.
    replace (11904 <=? r) with false by lia.
    replace (44032 <=? r) with false by lia.
    replace (63744 <=? r) with false by lia.
    replace (65072 <=? r) with false by lia.
    replace (65280 <=? r) with false by lia.
    replace (65504 <=? r) with false by lia.
    replace (127744 <=? r) with false by lia.
    replace (131072 <=? r) with false by lia.
    rewrite !andb_false_r. reflexivity.
Defined.

(** ** Package [color] (github.com/fatih/color) *)
Module color.

(** Modelled from the spec: the colour package is an imported collaborator
    outside the repository.  A colour is its list of SGR attributes and the
    no-colour switch; [Sprint] wraps the text between the escape sequence
    that sets the attributes and the one that resets them, or returns the
    text as it is when colours are switched off (section 1: decoration
    wraps, never replaces, visible glyphs). *)
Record Color := { params : list Z; noColor : bool }.

Definition escape : rune := 27.

Fixpoint digits (u : Decimal.uint) : gostring :=
  match u with
  | Decimal.Nil => []
  | Decimal.D0 u => 48 :: digits u
  | Decimal.D1 u => 49 :: digits u
  | Decimal.D2 u => 50 :: digits u
  | Decimal.D3 u => 51 :: digits u
  | Decimal.D4 u => 52 :: digits u
  | Decimal.D5 u => 53 :: digits u
  | Decimal.D6 u => 54 :: digits u
  | Decimal.D7 u => 55 :: digits u
  | Decimal.D8 u => 56 :: digits u
  | Decimal.D9 u => 57 :: digits u
  end.

(** [strconv.Itoa]. *)
Definition Itoa (n : Z) : gostring :=
  match Z.to_int n with
  | Decimal.Pos u => digits u
  | Decimal.Neg u => 45 :: digits u
  end.

(** The attributes, in decimal, separated by semicolons. *)
Definition sequence (c : Color) : gostring :=
  strings.Join (map Itoa (params c)) (gostr ";").

Definition format (c : Color) : gostring :=
  escape :: gostr "[" ++ sequence c ++ gostr "m".

Definition unformat (c : Color) : gostring :=
  escape :: gostr "[0m".

Definition Sprint (c : Color) (s : gostring) : gostring :=
  if noColor c then s else format c ++ s ++ unformat c.

Definition New (attrs : list Z) : Color :=
  {| params := attrs; noColor := false |}.

Definition Bold : Z := 1.
Definition Faint : Z := 2.
Definition Italic : Z := 3.
Definition Underline : Z := 4.
Definition FgHiBlack : Z := 90.
Definition FgHiRed : Z := 91.
Definition FgHiGreen : Z := 92.
Definition FgHiYellow : Z := 93.
Definition FgHiBlue : Z := 94.
Definition FgHiMagenta : Z := 95.
Definition FgHiCyan : Z := 96.
Definition FgHiWhite : Z := 97.

End color.

(** ** Package [style]: symbols and themes *)
Module style.
Import color.

Definition BoxTopLeft : gostring := [9581].
Definition BoxTopRight : gostring := [9582].
Definition BoxBottomLeft : gostring := [9584].
Definition BoxBottomRight : gostring := [9583].
Definition BoxHorizontal : gostring := [9472].
Definition BoxVertical : gostring := [9474].
Definition BoxTee : gostring := [9500].
Definition BoxCross : gostring := [9532].
Definition BoxTeeRight : gostring := [9508].
Definition BoxTeeTop : gostring := [9516].
Definition BoxTeeBottom : gostring := [9524].

Record Theme := {
  Primary : Color; Secondary : Color; Success : Color; Warning : Color;
  Error : Color; Muted : Color;
  Accent1 : Color; Accent2 : Color; Accent3 : Color;
  Bold : Color; Italic : Color; Underline : Color; Faint : Color;
  Border : Color; Header : Color; Footer : Color;
  Selected : Color; Disabled : Color
}.

Definition NewTheme : Theme := {|
  Primary := New [FgHiCyan; color.Bold];
  Secondary := New [FgHiBlue];
  Success := New [FgHiGreen; color.Bold];
  Warning := New [FgHiYellow];
  Error := New [FgHiRed; color.Bold];
  Muted := New [FgHiBlack];
  Accent1 := New [FgHiMagenta];
  Accent2 := New [FgHiCyan];
  Accent3 := New [FgHiWhite];
  Bold := New [color.Bold];
  Italic := New [color.Italic];
  Underline := New [color.Underline];
  Faint := New [color.Faint];
  Border := New [FgHiCyan];
  Header := New [FgHiWhite; color.Bold];
  Footer := New [FgHiBlack];
  Selected := New [FgHiMagenta];
  Disabled := New [FgHiBlack]
|}.

End style.

Definition ellipsis : gostring := [8230].
Definition space : gostring := gostr " ".
Definition lineFeed : rune := 10.

(** Counted loop [for i := 0; i < n; i++], collecting one value per turn. *)
Definition forRange {A : Type} (n : Z) (body : Z -> option A) : option (list A) :=
  mapM body (map Z.of_nat (seq 0 (Z.to_nat n))).

Definition len {A : Type} (l : list A) : Z := Z.of_nat (length l).

(** ** Package [core]: components and the line layout engine *)
Module core.
Import runewidth.

(** [core.Component]: explicit size (non-positive means auto) and
    visibility.  Its [style] field is not read by the renderers and is
    left out. *)
Record Component := { width : Z; height : Z; hidden : bool }.

Definition NewComponent : Component :=
  {| width := -1; height := -1; hidden := false |}.

Definition Width (c : Component) (w : Z) : Component :=
  {| width := w; height := height c; hidden := hidden c |}.
Definition Height (c : Component) (h : Z) : Component :=
  {| width := width c; height := h; hidden := hidden c |}.
Definition Hide (c : Component) : Component :=
  {| width := width c; height := height c; hidden := true |}.
Definition Show (c : Component) : Component :=
  {| width := width c; height := height c; hidden := false |}.
Definition GetWidth (c : Component) : Z := width c.
Definition GetHeight (c : Component) : Z := height c.
Definition IsHidden (c : Component) : bool := hidden c.

(** [core.Renderer]: the receiver of the layout methods (they do not read
    its fields). *)
Record Renderer := { rwidth : Z; rheight : Z }.
Definition NewRenderer (w h : Z) : Renderer := {| rwidth := w; rheight := h |}.

(** [core.Alignment] is an integer type with three named values. *)
Definition Alignment := Z.
Definition AlignLeft : Alignment := 0.
Definition AlignCenter : Alignment := 1.
Definition AlignRight : Alignment := 2.

(** [StripANSI]: one pass over the runes with the flag [inEscape]; an
    escape rune opens a sequence, the next ASCII letter closes it, and
    nothing in between is written. *)
Definition isLetter (r : rune) : bool :=
  ((97 <=? r) && (r <=? 122)) || ((65 <=? r) && (r <=? 90)).

Fixpoint stripLoop (inEscape : bool) (str : gostring) : gostring * bool :=
  match str with
  | [] => ([], inEscape)
  | r :: str' =>
      if r =? 27 then stripLoop true str'
      else if inEscape then
        stripLoop (if isLetter r then false else true) str'
      else let '(out, st) := stripLoop false str' in (r :: out, st)
  end.

Definition StripANSI (str : gostring) : gostring := fst (stripLoop false str).

(** [core.BoxChars]: the six runes of a frame. *)
Record BoxChars := {
  TopLeft : rune; TopRight : rune; BottomLeft : rune; BottomRight : rune;
  Horizontal : rune; Vertical : rune
}.

Definition DefaultBoxChars : BoxChars :=
  {| TopLeft := 9581; TopRight := 9582; BottomLeft := 9584;
     BottomRight := 9583; Horizontal := 9472; Vertical := 9474 |}.

Definition ClassicBoxChars : BoxChars :=
  {| TopLeft := 43; TopRight := 43; BottomLeft := 43; BottomRight := 43;
     Horizontal := 45; Vertical := 124 |}.

Section Layout.
Context {cond : Condition}.

Definition MeasureText (text : gostring) : Z := StringWidth (StripANSI text).

Definition PadText (r : Renderer) (text : gostring) (width : Z)
    (align : Alignment) : option gostring :=
  if width <=? 0 then Some text
  else
    let textWidth := StringWidth text in
    if textWidth >=? width then Some (Truncate text width ellipsis)
    else
      let padding := width - textWidth in
      if align =? AlignLeft then
        p <- strings.Repeat space padding ;; Some (text ++ p)
      else if align =? AlignRight then
        p <- strings.Repeat space padding ;; Some (p ++ text)
      else if align =? AlignCenter then
        let leftPad := padding ÷ 2 in
        let rightPad := padding - leftPad in
        l <- strings.Repeat space leftPad ;;
        rp <- strings.Repeat space rightPad ;;
        Some (l ++ text ++ rp)
      else
        p <- strings.Repeat space padding ;; Some (text ++ p).

(** One iteration of the word loop shared by [Renderer.WrapText] and
    [Box.wrapContent]: the state is the list of finished lines and the
    line being filled. *)
Definition wrapWord (width : Z) (st : list gostring * gostring)
    (word : gostring) : list gostring * gostring :=
  let '(lines, currentLine) := st in
  let testLine :=
    (if nonempty currentLine then currentLine ++ space else currentLine)
    ++ word in
  if StringWidth testLine <=? width then (lines, testLine)
  else if nonempty currentLine then (lines ++ [currentLine], word)
  else (lines ++ [Truncate word width ellipsis], []).

Definition WrapText (r : Renderer) (text : gostring) (width : Z)
    : list gostring :=
  if width <=? 0 then [text]
  else
    let words := strings.Fields text in
    if (length words =? 0)%nat then [[]]
    else
      let '(lines, currentLine) :=
        fold_left (wrapWord width) words (emptyLines, emptyLine) in
      if nonempty currentLine then lines ++ [currentLine] else lines.

Definition TruncateText (r : Renderer) (text : gostring) (width : Z)
    : gostring :=
  if width <=? 0 then []
  else Truncate text width ellipsis.

Definition CenterText (r : Renderer) (text : gostring) (width : Z)
    : option gostring :=
  PadText r text width AlignCenter.

(** [RepeatChar]: [string(char)] is the string of the one rune. *)
Definition RepeatChar (r : Renderer) (char : rune) (width : Z)
    : option gostring :=
  if width <=? 0 then Some []
  else
    let charWidth := RuneWidth char in
    let charWidth := if charWidth =? 0 then 1 else charWidth in
    let count := width ÷ charWidth in
    strings.Repeat [char] count.

(** [JoinVertical]: every string padded to the width, one per line. *)
Definition JoinVertical (r : Renderer) (strs : list gostring) (width : Z)
    (align : Alignment) : option gostring :=
  result <- mapM (fun str => PadText r str width align) strs ;;
  Some (strings.Join result [lineFeed]).

Definition JoinHorizontal (r : Renderer) (strs : list gostring)
    (separator : gostring) : gostring :=
  strings.Join strs separator.

(** [Renderer.Box] (the name [Box] is kept for the component of package
    [ui]): a frame of [height] lines around the first lines of the
    content, each padded or truncated to the inner width. *)
Definition DrawBox (r : Renderer) (content : gostring) (width height : Z)
    (chars : BoxChars) : option gostring :=
  if (width <? 3) || (height <? 3) then Some content
  else
    let contentWidth := width - 2 in
    let contentHeight := height - 2 in
    let lines := strings.Split content lineFeed in
    contentLines <-
      forRange contentHeight (fun i =>
        if i <? len lines
        then PadText r (nth (Z.to_nat i) lines []) contentWidth AlignLeft
        else strings.Repeat space contentWidth) ;;
    h <- strings.Repeat [Horizontal chars] (width - 2) ;;
    let topBorder := [TopLeft chars] ++ h ++ [TopRight chars] in
    let rows :=
      map (fun line => [Vertical chars] ++ line ++ [Vertical chars])
          contentLines in
    h' <- strings.Repeat [Horizontal chars] (width - 2) ;;
    let bottomBorder := [BottomLeft chars] ++ h' ++ [BottomRight chars] in
    Some (strings.Join ([topBorder] ++ rows ++ [bottomBorder]) [lineFeed]).

(** [formatTableRow]: a column without a declared width is ten wide. *)
Definition formatTableCell (r : Renderer) (columnWidths : list Z) (i : nat)
    (cell : gostring) : option gostring :=
  let width :=
    if Z.of_nat i <? len columnWidths then nth i columnWidths 0 else 10 in
  paddedCell <- PadText r cell width AlignLeft ;;
  Some (space ++ paddedCell ++ space ++ [9474]).

Definition formatTableRow (r : Renderer) (cells : list gostring)
    (columnWidths : list Z) : option gostring :=
  parts <- forEach (formatTableCell r columnWidths) 0 cells ;;
  Some ([9474] ++ List.concat parts).

Definition formatTableSegment (i : nat) (width : Z) : option gostring :=
  h <- strings.Repeat [9472] (width + 2) ;;
  Some ((if (0 <? i)%nat then [9532] else []) ++ h).

Definition formatTableSeparator (r : Renderer) (columnWidths : list Z)
    : option gostring :=
  parts <- forEach formatTableSegment 0 columnWidths ;;
  Some ([9500] ++ List.concat parts ++ [9508]).

Definition FormatTable (r : Renderer) (headers : list gostring)
    (rows : list (list gostring)) (columnWidths : list Z) : option gostring :=
  if len headers =? 0 then Some []
  else
    headerRow <- formatTableRow r headers columnWidths ;;
    separator <- formatTableSeparator r columnWidths ;;
    formattedRows <- mapM (fun row => formatTableRow r row columnWidths) rows ;;
    Some (strings.Join ([headerRow; separator] ++ formattedRows) [lineFeed]).

End Layout.
End core.

(** Slice assignment [s[i] = v] for an index known to be in range. *)
Fixpoint setAt {A : Type} (i : nat) (v : A) (l : list A) : list A :=
  match l, i with
  | [], _ => []
  | _ :: l', O => v :: l'
  | a :: l', S i' => a :: setAt i' v l'
  end.

(** ** Package [ui]: the box composer *)
Module Box.
Import runewidth color style core.

Record Box := mkBox {
  Component : core.Component;
  title : gostring;
  content : gostring;
  padding : Z;
  border : bool;
  borderStyle : option Color;
  titleStyle : option Color;
  contentStyle : option Color
}.

Definition NewBox : Box := {|
  Component := NewComponent; title := []; content := [];
  padding := 1; border := true;
  borderStyle := None; titleStyle := None; contentStyle := None
|}.

Definition withComponent (b : Box) (c : core.Component) : Box :=
  {| Component := c; title := title b; content := content b;
     padding := padding b; border := border b;
     borderStyle := borderStyle b; titleStyle := titleStyle b;
     contentStyle := contentStyle b |}.

Definition Title (b : Box) (t : gostring) : Box :=
  {| Component := Component b; title := t; content := content b;
     padding := padding b; border := border b;
     borderStyle := borderStyle b; titleStyle := titleStyle b;
     contentStyle := contentStyle b |}.

Definition Content (b : Box) (c : gostring) : Box :=
  {| Component := Component b; title := title b; content := c;
     padding := padding b; border := border b;
     borderStyle := borderStyle b; titleStyle := titleStyle b;
     contentStyle := contentStyle b |}.

Definition Padding (b : Box) (p : Z) : Box :=
  {| Component := Component b; title := title b; content := content b;
     padding := p; border := border b;
     borderStyle := borderStyle b; titleStyle := titleStyle b;
     contentStyle := contentStyle b |}.

Definition Border (b : Box) (enabled : bool) : Box :=
  {| Component := Component b; title := title b; content := content b;
     padding := padding b; border := enabled;
     borderStyle := borderStyle b; titleStyle := titleStyle b;
     contentStyle := contentStyle b |}.

Definition BoxWidth (b : Box) (w : Z) : Box :=
  withComponent b (core.Width (Component b) w).
Definition BoxHeight (b : Box) (h : Z) : Box :=
  withComponent b (core.Height (Component b) h).
Definition BoxHide (b : Box) : Box :=
  withComponent b (core.Hide (Component b)).

(** A style set on the component, else the theme's colour. *)
Definition orTheme (c : option Color) (d : Color) : Color :=
  match c with Some c' => c' | None => d end.

Section BoxRender.
Context {cond : Condition}.

Definition calculateWidth (b : Box) : Z :=
  let maxWidth := StringWidth (title b) in
  let lines := strings.Split (content b) lineFeed in
  let maxWidth :=
    fold_left (fun maxWidth line =>
                 let lineWidth := StringWidth line in
                 if lineWidth >? maxWidth then lineWidth else maxWidth)
              lines maxWidth in
  maxWidth + (padding b * 2) + 2.

Definition calculateHeight (b : Box) (width : Z) : Z :=
  let contentWidth := width - (padding b * 2) - 2 in
  let contentWidth := if contentWidth <=? 0 then 1 else contentWidth in
  let lines := strings.Split (content b) lineFeed in
  let totalLines :=
    fold_left (fun totalLines line =>
                 if nonempty line then
                   let lineWidth := StringWidth line in
                   let wrappedLines :=
                     (lineWidth + contentWidth - 1) ÷ contentWidth in
                   let wrappedLines :=
                     if wrappedLines =? 0 then 1 else wrappedLines in
                   totalLines + wrappedLines
                 else totalLines + 1)
              lines 0 in
  let height := totalLines + (padding b * 2) + 2 in
  if nonempty (title b) then height + 1 else height.

(** The body of the line loop of [wrapContent]: the lines one content
    line contributes to the result. *)
Definition wrapLine (width : Z) (line : gostring) : list gostring :=
  if nonempty line then
    let words := strings.Fields line in
    if (length words =? 0)%nat then [[]]
    else
      let '(lines, currentLine) :=
        fold_left (wrapWord width) words (emptyLines, emptyLine) in
      if nonempty currentLine then lines ++ [currentLine] else lines
  else [[]].

Definition wrapContent (b : Box) (width : Z) : list gostring :=
  if width <=? 0 then [content b]
  else
    let lines := strings.Split (content b) lineFeed in
    fold_left (fun result line => result ++ wrapLine width line) lines [].

(** The pieces of [renderWithBorder], in the order of its body: the top
    border (with the title between brackets when there is one), a blank
    padding row, the content row of index [i], the bottom border. *)
Definition topBorder (b : Box) (borderColor titleColor : Color) (width : Z)
    : option gostring :=
  if nonempty (title b) then
    let titleStr := title b in
    let titleWidth := StringWidth titleStr in
    let availableWidth := width - 2 in
    let maxTitleWidth := availableWidth - 4 in
    let '(titleStr, titleWidth) :=
      if titleWidth >? maxTitleWidth
      then (Truncate titleStr maxTitleWidth ellipsis, maxTitleWidth)
      else (titleStr, titleWidth) in
    let totalPadding := availableWidth - titleWidth - 4 in
    let leftPadding := totalPadding ÷ 2 in
    let rightPadding := totalPadding - leftPadding in
    l <- strings.Repeat (Sprint borderColor BoxHorizontal) leftPadding ;;
    r <- strings.Repeat (Sprint borderColor BoxHorizontal) rightPadding ;;
    Some (Sprint borderColor BoxTopLeft ++ l
          ++ Sprint borderColor (gostr "[ ")
          ++ Sprint titleColor titleStr
          ++ Sprint borderColor (gostr " ]")
          ++ r ++ Sprint borderColor BoxTopRight)
  else
    h <- strings.Repeat (Sprint borderColor BoxHorizontal) (width - 2) ;;
    Some (Sprint borderColor BoxTopLeft ++ h ++ Sprint borderColor BoxTopRight).

Definition paddingRow (borderColor : Color) (width : Z) : option gostring :=
  s <- strings.Repeat space (width - 2) ;;
  Some (Sprint borderColor BoxVertical ++ s ++ Sprint borderColor BoxVertical).

Definition contentRow (b : Box) (borderColor contentColor : Color)
    (contentLines : list gostring) (contentWidth : Z) (i : Z)
    : option gostring :=
  let line :=
    if i <? len contentLines
    then Sprint contentColor (nth (Z.to_nat i) contentLines [])
    else [] in
  let lineWidth := StringWidth (StripANSI line) in
  let padding := contentWidth - lineWidth in
  line <- (if padding >? 0
           then p <- strings.Repeat space padding ;; Some (line ++ p)
           else Some line) ;;
  lp <- strings.Repeat space (Box.padding b) ;;
  rp <- strings.Repeat space (Box.padding b) ;;
  Some (Sprint borderColor BoxVertical ++ lp ++ line ++ rp
        ++ Sprint borderColor BoxVertical).

Definition bottomBorder (borderColor : Color) (width : Z) : option gostring :=
  h <- strings.Repeat (Sprint borderColor BoxHorizontal) (width - 2) ;;
  Some (Sprint borderColor BoxBottomLeft ++ h
        ++ Sprint borderColor BoxBottomRight).

Definition renderWithBorder (b : Box) (theme : Theme) (width height : Z)
    : option gostring :=
  if (width <? 3) || (height <? 3) then Some (content b)
  else
    let borderColor := orTheme (borderStyle b) (style.Border theme) in
    let titleColor := orTheme (titleStyle b) (style.Header theme) in
    let contentColor := orTheme (contentStyle b) (style.Primary theme) in
    topLine <- topBorder b borderColor titleColor width ;;
    let contentWidth := width - 2 - (padding b * 2) in
    let contentWidth := if contentWidth <=? 0 then 1 else contentWidth in
    let contentLines := wrapContent b contentWidth in
    let contentHeight := height - 2 in
    topRows <- forRange (padding b) (fun _ => paddingRow borderColor width) ;;
    let contentHeight := contentHeight - len topRows in
    contentRows <-
      forRange (contentHeight - padding b)
        (contentRow b borderColor contentColor contentLines contentWidth) ;;
    bottomRows <- forRange (padding b) (fun _ => paddingRow borderColor width) ;;
    bottomLine <- bottomBorder borderColor width ;;
    Some (strings.Join
            ([topLine] ++ topRows ++ contentRows ++ bottomRows ++ [bottomLine])
            [lineFeed]).

Definition renderWithoutBorder (b : Box) (theme : Theme) (width height : Z)
    : option gostring :=
  let contentColor := orTheme (contentStyle b) (style.Primary theme) in
  let titleColor := orTheme (titleStyle b) (style.Header theme) in
  let result :=
    if nonempty (title b) then [Sprint titleColor (title b)] else [] in
  let contentWidth := width - (padding b * 2) in
  let contentWidth := if contentWidth <=? 0 then width else contentWidth in
  let contentLines := wrapContent b contentWidth in
  rows <- mapM (fun line =>
                  p <- strings.Repeat space (padding b) ;;
                  Some (p ++ Sprint contentColor line))
               contentLines ;;
  Some (strings.Join (result ++ rows) [lineFeed]).

Definition Render (b : Box) (theme : Theme) : option gostring :=
  if IsHidden (Component b) then Some []
  else
    let width := GetWidth (Component b) in
    let width := if width <=? 0 then calculateWidth b else width in
    let height := GetHeight (Component b) in
    let height := if height <=? 0 then calculateHeight b width else height in
    if negb (border b) then renderWithoutBorder b theme width height
    else renderWithBorder b theme width height.

End BoxRender.
End Box.

(** ** Package [ui]: the table composer *)
Module Table.
Import runewidth color style core.

Record Table := mkTable {
  Component : core.Component;
  headers : list gostring;
  rows : list (list gostring);
  columnWidths : list Z;
  border : bool;
  borderStyle : option Color;
  headerStyle : option Color;
  rowStyle : option Color;
  altRowStyle : option Color;
  alignment : list Alignment
}.

Definition NewTable : Table := {|
  Component := NewComponent; headers := []; rows := []; columnWidths := [];
  border := true; borderStyle := None; headerStyle := None;
  rowStyle := None; altRowStyle := None; alignment := [AlignLeft]
|}.

Definition setWidths (t : Table) (ws : list Z) : Table :=
  {| Component := Component t; headers := headers t; rows := rows t;
     columnWidths := ws; border := border t; borderStyle := borderStyle t;
     headerStyle := headerStyle t; rowStyle := rowStyle t;
     altRowStyle := altRowStyle t; alignment := alignment t |}.

Definition setRows (t : Table) (rs : list (list gostring)) : Table :=
  {| Component := Component t; headers := headers t; rows := rs;
     columnWidths := columnWidths t; border := border t;
     borderStyle := borderStyle t; headerStyle := headerStyle t;
     rowStyle := rowStyle t; altRowStyle := altRowStyle t;
     alignment := alignment t |}.

Definition Hide (t : Table) : Table :=
  {| Component := core.Hide (Component t); headers := headers t;
     rows := rows t; columnWidths := columnWidths t; border := border t;
     borderStyle := borderStyle t; headerStyle := headerStyle t;
     rowStyle := rowStyle t; altRowStyle := altRowStyle t;
     alignment := alignment t |}.

Definition Border (t : Table) (enabled : bool) : Table :=
  {| Component := Component t; headers := headers t; rows := rows t;
     columnWidths := columnWidths t; border := enabled;
     borderStyle := borderStyle t; headerStyle := headerStyle t;
     rowStyle := rowStyle t; altRowStyle := altRowStyle t;
     alignment := alignment t |}.

Definition Alignments (t : Table) (alignments : list Alignment) : Table :=
  {| Component := Component t; headers := headers t; rows := rows t;
     columnWidths := columnWidths t; border := border t;
     borderStyle := borderStyle t; headerStyle := headerStyle t;
     rowStyle := rowStyle t; altRowStyle := altRowStyle t;
     alignment := alignments |}.


Section TableRender.
Context {cond : Condition}.

(** The loop of [updateColumnWidthsForRow], from cell index [i] on: a
    column in range grows to the width of a wider cell. *)
Fixpoint updateLoop (i : nat) (row : list gostring) (widths : list Z)
    : list Z :=
  match row with
  | [] => widths
  | cell :: row' =>
      let widths' :=
        if (Z.of_nat i <? len widths) then
          let cellWidth := StringWidth cell in
          if cellWidth >? nth i widths 0 then setAt i cellWidth widths
          else widths
        else widths in
      updateLoop (S i) row' widths'
  end.

Definition updateColumnWidthsForRow (t : Table) (row : list gostring)
    : Table :=
  setWidths t (updateLoop 0 row (columnWidths t)).

(** The header loop of [calculateColumnWidths] and of [Headers]. *)
Fixpoint headerLoop (i : nat) (hs : list gostring) (widths : list Z)
    : list Z :=
  match hs with
  | [] => widths
  | header :: hs' =>
      let widths' :=
        if (Z.of_nat i <? len widths)
        then setAt i (StringWidth header) widths
        else widths in
      headerLoop (S i) hs' widths'
  end.

Definition calculateColumnWidths (t : Table) : Table :=
  let t :=
    if (len (columnWidths t) =? 0)
    then setWidths t (repeat 0 (length (headers t)))
    else t in
  let t := setWidths t (headerLoop 0 (headers t) (columnWidths t)) in
  fold_left updateColumnWidthsForRow (rows t) t.

Definition Headers (t : Table) (hs : list gostring) : Table :=
  let t :=
    {| Component := Component t; headers := hs; rows := rows t;
       columnWidths := columnWidths t; border := border t;
       borderStyle := borderStyle t; headerStyle := headerStyle t;
       rowStyle := rowStyle t; altRowStyle := altRowStyle t;
       alignment := alignment t |} in
  let t :=
    if (len (columnWidths t) =? 0)
    then setWidths t (headerLoop 0 hs (repeat 0 (length hs)))
    else t in
  Alignments t
    (alignment t
     ++ repeat AlignLeft (length hs - length (alignment t))%nat).

Definition Rows (t : Table) (rs : list (list gostring)) : Table :=
  calculateColumnWidths (setRows t rs).

Definition AddRow (t : Table) (row : list gostring) : Table :=
  updateColumnWidthsForRow (setRows t (rows t ++ [row])) row.

Definition getAlignment (t : Table) (colIndex : nat) : Alignment :=
  if (Z.of_nat colIndex <? len (alignment t))
  then nth colIndex (alignment t) AlignLeft
  else AlignLeft.

(** The three border rows differ only by their glyphs: every column
    contributes a run of horizontal glyphs, two columns wider than the
    column, after a tee glyph for every column but the first. *)
Definition ruleSegment (borderColor : Color) (tee : gostring) (i : nat)
    (width : Z) : option gostring :=
  h <- strings.Repeat BoxHorizontal (width + 2) ;;
  Some ((if (0 <? i)%nat then Sprint borderColor tee else [])
        ++ Sprint borderColor h).

Definition renderRule (t : Table) (borderColor : Color)
    (left tee right : gostring) : option gostring :=
  segs <- forEach (ruleSegment borderColor tee) 0 (columnWidths t) ;;
  Some (Sprint borderColor left ++ List.concat segs
        ++ Sprint borderColor right).

Definition renderTopBorder (t : Table) (borderColor : Color) :=
  renderRule t borderColor BoxTopLeft BoxTeeTop BoxTopRight.
Definition renderBottomBorder (t : Table) (borderColor : Color) :=
  renderRule t borderColor BoxBottomLeft BoxTeeBottom BoxBottomRight.
Definition renderSeparator (t : Table) (borderColor : Color) :=
  renderRule t borderColor BoxTee BoxCross BoxTeeRight.

(** The cell of column [i]: missing cells are empty, over-wide cells
    are truncated, then the cell is padded with the column's
    alignment. *)
Definition paddedCell (t : Table) (cells : list gostring) (i : nat)
    (width : Z) : option gostring :=
  let cell := if (Z.of_nat i <? len cells) then nth i cells [] else [] in
  let cell :=
    if StringWidth cell >? width then Truncate cell width ellipsis
    else cell in
  let alignment := getAlignment t i in
  let renderer := NewRenderer width 1 in
  PadText renderer cell width alignment.

(** What column [i] adds to a bordered row: the styled cell between two
    blanks, then the border glyph. *)
Definition rowPart (t : Table) (cells : list gostring)
    (cellColor borderColor : Color) (i : nat) (width : Z) : option gostring :=
  c <- paddedCell t cells i width ;;
  Some (space ++ Sprint cellColor c ++ space
        ++ Sprint borderColor BoxVertical).

Definition renderRow (t : Table) (cells : list gostring)
    (cellColor borderColor : Color) (isHeader : bool) : option gostring :=
  parts <- forEach (rowPart t cells cellColor borderColor) 0 (columnWidths t) ;;
  Some (Sprint borderColor BoxVertical ++ List.concat parts).

Definition renderRowNoBorder (t : Table) (cells : list gostring)
    (cellColor : Color) : option gostring :=
  parts <- forEach (fun i width =>
                      c <- paddedCell t cells i width ;;
                      Some (Sprint cellColor c))
                   0 (columnWidths t) ;;
  Some (strings.Join parts space).

Definition getTotalWidth (t : Table) : Z :=
  let total := fold_left Z.add (columnWidths t) 0 in
  if len (columnWidths t) >? 1 then total + (len (columnWidths t) - 1)
  else total.

(** The colour of data row [i]: even rows and odd rows alternate. *)
Definition rowColorAt (rowColor altRowColor : Color) (i : nat) : Color :=
  if Nat.even i then rowColor else altRowColor.

Definition Render (t : Table) (theme : Theme) : option gostring :=
  if IsHidden (Component t) || (len (headers t) =? 0) then Some []
  else
    let borderColor := Box.orTheme (borderStyle t) (style.Border theme) in
    let headerColor := Box.orTheme (headerStyle t) (style.Header theme) in
    let rowColor := Box.orTheme (rowStyle t) (style.Primary theme) in
    let altRowColor := Box.orTheme (altRowStyle t) (style.Secondary theme) in
    if border t then
      top <- renderTopBorder t borderColor ;;
      header <- renderRow t (headers t) headerColor borderColor true ;;
      sep <- renderSeparator t borderColor ;;
      body <- forEach (fun i row =>
                         renderRow t row (rowColorAt rowColor altRowColor i)
                                   borderColor false)
                      0 (rows t) ;;
      bottom <- renderBottomBorder t borderColor ;;
      Some (strings.Join ([top; header; sep] ++ body ++ [bottom]) [lineFeed])
    else
      header <- renderRowNoBorder t (headers t) headerColor ;;
      rule <- strings.Repeat (gostr "-") (getTotalWidth t) ;;
      body <- forEach (fun i row =>
                         renderRowNoBorder t row
                           (rowColorAt rowColor altRowColor i))
                      0 (rows t) ;;
      Some (strings.Join ([header; rule] ++ body) [lineFeed]).

End TableRender.
End Table.

(** ** Package [ui]: the menu *)
Module Menu.
Import runewidth color style core.

(** [ui.Menu].  [OptionsWithDesc] fills the options from a Go map, whose
    iteration order is not fixed; it is not modelled. *)
Record Menu := mkMenu {
  Component : core.Component;
  title : gostring;
  options : list gostring;
  descriptions : list gostring;
  selected : Z;
  prefix : gostring;
  selectedPrefix : gostring;
  titleStyle : option Color;
  optionStyle : option Color;
  selectedStyle : option Color;
  descStyle : option Color
}.

Definition NewMenu : Menu := {|
  Component := NewComponent; title := []; options := []; descriptions := [];
  selected := 0; prefix := gostr "  "; selectedPrefix := [9654; 32];
  titleStyle := None; optionStyle := None; selectedStyle := None;
  descStyle := None
|}.

Definition setSelected (m : Menu) (index : Z) : Menu :=
  {| Component := Component m; title := title m; options := options m;
     descriptions := descriptions m; selected := index; prefix := prefix m;
     selectedPrefix := selectedPrefix m; titleStyle := titleStyle m;
     optionStyle := optionStyle m; selectedStyle := selectedStyle m;
     descStyle := descStyle m |}.

Definition Title (m : Menu) (t : gostring) : Menu :=
  {| Component := Component m; title := t; options := options m;
     descriptions := descriptions m; selected := selected m;
     prefix := prefix m; selectedPrefix := selectedPrefix m;
     titleStyle := titleStyle m; optionStyle := optionStyle m;
     selectedStyle := selectedStyle m; descStyle := descStyle m |}.

Definition Options (m : Menu) (opts : list gostring) : Menu :=
  {| Component := Component m; title := title m; options := opts;
     descriptions := descriptions m; selected := selected m;
     prefix := prefix m; selectedPrefix := selectedPrefix m;
     titleStyle := titleStyle m; optionStyle := optionStyle m;
     selectedStyle := selectedStyle m; descStyle := descStyle m |}.

Definition Hide (m : Menu) : Menu :=
  {| Component := core.Hide (Component m); title := title m;
     options := options m; descriptions := descriptions m;
     selected := selected m; prefix := prefix m;
     selectedPrefix := selectedPrefix m; titleStyle := titleStyle m;
     optionStyle := optionStyle m; selectedStyle := selectedStyle m;
     descStyle := descStyle m |}.

(** [Selected] and [SelectByIndex]: an index out of range is ignored. *)
Definition Selected (m : Menu) (index : Z) : Menu :=
  if (index >=? 0) && (index <? len (options m)) then setSelected m index
  else m.

Definition SelectByIndex (m : Menu) (index : Z) : Menu :=
  if (index >=? 0) && (index <? len (options m)) then setSelected m index
  else m.

Definition GetSelected (m : Menu) : Z := selected m.

Definition GetSelectedOption (m : Menu) : gostring :=
  if (selected m >=? 0) && (selected m <? len (options m))
  then nth (Z.to_nat (selected m)) (options m) []
  else [].

(** Go's [%] is the remainder of the truncated division. *)
Definition SelectNext (m : Menu) : Menu :=
  if len (options m) >? 0
  then setSelected m (Z.rem (selected m + 1) (len (options m)))
  else m.

Definition SelectPrev (m : Menu) : Menu :=
  if len (options m) >? 0
  then setSelected m
         (Z.rem (selected m - 1 + len (options m)) (len (options m)))
  else m.

(** String equality [opt == option], rune by rune. *)
Fixpoint stringEq (a b : gostring) : bool :=
  match a, b with
  | [], [] => true
  | x :: a', y :: b' => (x =? y) && stringEq a' b'
  | _, _ => false
  end.

(** The loop of [SelectByOption]: the index of the first option equal to
    the text [text] (the source's [option]), from index [i] on. *)
Fixpoint firstMatch (i : nat) (opts : list gostring) (text : gostring)
    : option nat :=
  match opts with
  | [] => None
  | opt :: opts' =>
      if stringEq opt text then Some i else firstMatch (S i) opts' text
  end.

Definition SelectByOption (m : Menu) (text : gostring) : Menu :=
  match firstMatch 0 (options m) text with
  | Some i => setSelected m (Z.of_nat i)
  | None => m
  end.

Section MenuRender.
Context {cond : Condition}.

Definition maxOptionWidth (opts : list gostring) : Z :=
  fold_left (fun maxOptionWidth text =>
               let width := StringWidth text in
               if width >? maxOptionWidth then width else maxOptionWidth)
            opts 0.

(** The body of the option loop of [Render]: the line of option [i].  The
    selected and the regular branch differ by the colour and the prefix. *)
Definition optionLine (m : Menu) (optionColor selectedColor descColor : Color)
    (maxOptionWidth : Z) (i : nat) (text : gostring) : option gostring :=
  let desc :=
    if Z.of_nat i <? len (descriptions m) then nth i (descriptions m) []
    else [] in
  let line :=
    if Z.of_nat i =? selected m
    then Sprint selectedColor (selectedPrefix m ++ text)
    else Sprint optionColor (prefix m ++ text) in
  if nonempty desc then
    let optionPadding := maxOptionWidth - StringWidth text in
    p <- strings.Repeat space (optionPadding + 2) ;;
    Some (line ++ p ++ Sprint descColor desc)
  else Some line.

Definition Render (m : Menu) (theme : Theme) : option gostring :=
  if IsHidden (Component m) || (len (options m) =? 0) then Some []
  else
    let titleColor := Box.orTheme (titleStyle m) (style.Header theme) in
    let optionColor := Box.orTheme (optionStyle m) (style.Primary theme) in
    let selectedColor := Box.orTheme (selectedStyle m) (style.Selected theme) in
    let descColor := Box.orTheme (descStyle m) (style.Muted theme) in
    let result :=
      if nonempty (title m) then [Sprint titleColor (title m); []] else [] in
    let maxOptionWidth := maxOptionWidth (options m) in
    lines <- forEach (optionLine m optionColor selectedColor descColor
                        maxOptionWidth) 0 (options m) ;;
    Some (strings.Join (result ++ lines) [lineFeed]).

End MenuRender.
End Menu.

(** * Vocabulary of the statements *)
Section Vocabulary.
Context {cond : runewidth.Condition}.
Import runewidth core Box.

(** [n] blank columns, and a renderer to call the layout methods on. *)
Definition blanks (n : Z) : gostring := repeat 32 (Z.to_nat n).
Definition r0 : core.Renderer := core.NewRenderer 80 24.

(** The line obtained by adding a word to the line being filled. *)
Definition glue (cur word : gostring) : gostring :=
  (if nonempty cur then cur ++ space else cur) ++ word.

(** Runes that may stand between the escape rune and the closing letter of
    a colour sequence: no escape, no letter, no line feed. *)
Definition seqRune (r : rune) : bool :=
  negb (r =? 27) && negb (core.isLetter r) && negb (r =? lineFeed).

(** Plain text of one line: no escape rune and no line feed. *)
Definition plainRune (r : rune) : bool := negb (r =? 27) && negb (r =? lineFeed).

(** [lays s n]: the text [s] is one line, every escape sequence it opens is
    closed, and it measures [n] columns once the sequences are stripped. *)
Definition lays (s : gostring) (n : Z) : Prop :=
  snd (stripLoop false s) = false /\ MeasureText s = n /\ ~ In lineFeed s.

(** The width and the height that [Render] resolves: the explicit value
    when it is positive, else the computed one. *)
Definition resolvedWidth (b : Box) : Z :=
  if GetWidth (Component b) <=? 0 then calculateWidth b
  else GetWidth (Component b).


(** The whitespace-separated words of the content, line by line. *)
Definition contentWords (b : Box) : list gostring :=
  flat_map strings.Fields (strings.Split (content b) lineFeed).

(** [closed s]: every escape sequence that [s] opens ends inside [s]
    (in particular when [s] has no escape rune). *)
Definition closed (s : gostring) : Prop := snd (stripLoop false s) = false.


(** The measured width of every line of a bordered table with column
    widths [ws]: a border column, then each column with a blank on both
    sides and a border column after it. *)
Definition tableWidth (ws : list Z) : Z :=
  1 + fold_right (fun w acc => w + 3 + acc) 0 ws.


(** A cell of plain text: no escape rune and no line feed. *)
Definition plainCell (cell : gostring) : Prop := forallb plainRune cell = true.

(** A rune of one column that is not the line feed, and a frame made of
    such runes. *)
Definition unitRune (c : rune) : Prop := RuneWidth c = 1 /\ c <> lineFeed.

Definition unitChars (chars : BoxChars) : Prop :=
  unitRune (TopLeft chars) /\ unitRune (TopRight chars)
  /\ unitRune (BottomLeft chars) /\ unitRune (BottomRight chars)
  /\ unitRune (Horizontal chars) /\ unitRune (Vertical chars).

(** A cell of one line that fits a column of width [w]. *)
Definition cellFits (cell : gostring) (w : Z) : Prop :=
  ~ In lineFeed cell /\ StringWidth cell <= w.

(** The selection of a menu points at one of its options. *)
Definition inRange (m : Menu.Menu) : Prop :=
  0 <= Menu.selected m < len (Menu.options m).

(** For running the repository's tests: the first line of a rendered
    box with colour sequences stripped, the measured widths of all its
    lines, and the box of [TestBoxTitleAlignment]. *)
Definition topLineOf (b : Box) : option gostring :=
  option_map (fun out => StripANSI (hd [] (strings.Split out lineFeed)))
             (Render b style.NewTheme).

Definition measuredLines (b : Box) : option (list Z) :=
  option_map (fun out => map MeasureText (strings.Split out lineFeed))
             (Render b style.NewTheme).

Definition testBox (title : gostring) (width : Z) : Box :=
  BoxWidth (Content (Title NewBox title) (gostr "Test content")) width.

End Vocabulary.

(** * Verification *)

(** ** The width model *)
Section WidthFacts.
Context {cond : runewidth.Condition}.
Import runewidth.

Lemma StringWidth_nonneg (s : gostring) : 0 <= StringWidth s.
Proof.
  induction s as [|c s IH]; simpl; [lia|].
  pose proof (RuneWidth_range c). lia.
Qed.

Lemma StringWidth_app (a b : gostring) :
  StringWidth (a ++ b) = StringWidth a + StringWidth b.
Proof. induction a as [|c a IH]; simpl; lia. Qed.

Lemma StringWidth_space : StringWidth space = 1.
Proof. simpl. rewrite RuneWidth_ascii; lia. Qed.

Lemma StringWidth_ellipsis : StringWidth ellipsis = 1.
Proof. simpl. rewrite RuneWidth_ellipsis. lia. Qed.

Lemma StringWidth_ascii (s : gostring) :
  Forall (fun c => 32 <= c < 127) s -> StringWidth s = len s.
Proof.
  unfold len. induction 1 as [|c s Hc _ IH]; [reflexivity|].
  cbn [StringWidth length]. rewrite RuneWidth_ascii, IH by exact Hc. lia.
Qed.

Lemma StringWidth_printable (s : gostring) :
  forallb (fun c => (32 <=? c) && (c <? 127)) s = true ->
  StringWidth s = len s.
Proof.
  intro H. apply StringWidth_ascii. rewrite forallb_forall in H.
  apply Forall_forall. intros c Hc. specialize (H c Hc). lia.
Qed.

Lemma StringWidth_blanks (n : Z) : 0 <= n -> StringWidth (blanks n) = n.
Proof.
  intro Hn. unfold blanks.
  rewrite <- (Z2Nat.id n) at 2 by exact Hn.
  induction (Z.to_nat n) as [|k IH]; [reflexivity|].
  cbn [repeat StringWidth]. rewrite RuneWidth_ascii by lia. lia.
Qed.

Lemma truncateLoop_split (s : gostring) (width w : Z) :
  exists rest, s = truncateLoop s width w ++ rest.
Proof.
  revert width. induction s as [|c s IH]; intro width; simpl.
  - now exists [].
  - destruct (width + RuneWidth c >? w).
    + now exists (c :: s).
    + destruct (IH (width + RuneWidth c)) as [rest Hrest].
      exists rest. simpl. now rewrite <- Hrest.
Qed.

Lemma truncateLoop_width (s : gostring) (width w : Z) :
  width <= w -> width + StringWidth (truncateLoop s width w) <= w.
Proof.
  revert width. induction s as [|c s IH]; intros width Hw; simpl; [lia|].
  destruct (width + RuneWidth c >? w) eqn:E; simpl; [lia|].
  specialize (IH (width + RuneWidth c)). lia.
Qed.



Lemma Truncate_fits (s : gostring) (w : Z) (tail : gostring) :
  StringWidth s <= w -> Truncate s w tail = s.
Proof. intro H. unfold Truncate. now replace (StringWidth s <=? w) with true by lia. Qed.

Lemma Truncate_width (s : gostring) (w : Z) (tail : gostring) :
  StringWidth tail <= w -> StringWidth (Truncate s w tail) <= w.
Proof.
  intro Ht. unfold Truncate.
  destruct (StringWidth s <=? w) eqn:E; [lia|].
  rewrite StringWidth_app.
  pose proof (truncateLoop_width s 0 (w - StringWidth tail)). lia.
Qed.

(** The library primitive keeps its marker at every budget: a result
    that differs from the text is a prefix of the text followed by the
    tail. *)
Lemma Truncate_marker (s : gostring) (w : Z) (tail : gostring) :
  Truncate s w tail <> s ->
  exists p rest, s = p ++ rest /\ Truncate s w tail = p ++ tail.
Proof.
  unfold Truncate. destruct (StringWidth s <=? w); [congruence|].
  intros _. destruct (truncateLoop_split s 0 (w - StringWidth tail)) as [rest H].
  now exists (truncateLoop s 0 (w - StringWidth tail)), rest.
Qed.

End WidthFacts.

(** ** Standard library facts *)
Lemma Repeat_nonneg (s : gostring) (n : Z) :
  0 <= n -> strings.Repeat s n = Some (List.concat (repeat s (Z.to_nat n))).
Proof. intro H. unfold strings.Repeat. now replace (n <? 0) with false by lia. Qed.

Lemma Repeat_space (n : Z) : 0 <= n -> strings.Repeat space n = Some (blanks n).
Proof.
  intro H. rewrite Repeat_nonneg by exact H. unfold blanks. f_equal.
  induction (Z.to_nat n) as [|k IH]; [reflexivity|]. simpl. now rewrite IH.
Qed.

(** ** The line layout engine *)
Section LayoutFacts.
Context {cond : runewidth.Condition}.
Import runewidth core.

(** C9. With a width that is zero or negative, [PadText] returns the text
    unchanged, [WrapText] returns the text as its only line, and
    [RepeatChar] returns the empty string. *)
Theorem nonpositive_width_fallbacks (r : Renderer) (s : gostring) (c : rune)
    (align : Alignment) (w : Z) :
  w <= 0 ->
  PadText r s w align = Some s /\ WrapText r s w = [s]
  /\ RepeatChar r c w = Some [].
Proof.
  intro Hw. unfold PadText, WrapText, RepeatChar.
  replace (w <=? 0) with true by lia. auto.
Qed.

Lemma half_split (p : Z) :
  0 <= p -> 0 <= p ÷ 2 <= p - p ÷ 2 /\ p - p ÷ 2 <= p ÷ 2 + 1.
Proof.
  intro Hp. rewrite Z.quot_div_nonneg by lia.
  pose proof (Z.div_mod p 2). pose proof (Z.mod_pos_bound p 2). lia.
Qed.

(** The result of [PadText] on a text that fits, with [p] the number of
    missing columns. *)
Lemma PadText_shape (r : Renderer) (s : gostring) (w : Z) (align : Alignment) :
  StringWidth s <= w ->
  let p := w - StringWidth s in
  PadText r s w align
  = if 0 <? p
    then if align =? AlignLeft then Some (s ++ blanks p)
         else if align =? AlignRight then Some (blanks p ++ s)
         else if align =? AlignCenter
         then Some (blanks (p ÷ 2) ++ s ++ blanks (p - p ÷ 2))
         else Some (s ++ blanks p)
    else Some s.
Proof.
  intros Hs p. pose proof (StringWidth_nonneg s) as Hs0.
  pose proof (half_split p) as Hq.
  unfold PadText. destruct (w <=? 0) eqn:Ew.
  - now replace (0 <? p) with false by (unfold p; lia).
  - destruct (StringWidth s >=? w) eqn:Eg.
    + replace (0 <? p) with false by (unfold p; lia).
      now rewrite Truncate_fits by lia.
    + replace (0 <? p) with true by (unfold p; lia). fold p.
      now rewrite !Repeat_space by lia.
Qed.

(** Whatever the alignment, a text that fits comes back exactly [w] wide. *)
Lemma PadText_width (r : Renderer) (s : gostring) (w : Z) (align : Alignment) :
  StringWidth s <= w ->
  exists out, PadText r s w align = Some out /\ StringWidth out = w.
Proof.
  intro Hs. rewrite PadText_shape by exact Hs.
  pose proof (StringWidth_nonneg s) as Hs0.
  destruct (0 <? w - StringWidth s) eqn:E.
  - pose proof (half_split (w - StringWidth s)).
    destruct (align =? AlignLeft); [|destruct (align =? AlignRight);
      [|destruct (align =? AlignCenter)]];
    eexists; (split; [reflexivity|]);
    rewrite ?StringWidth_app, ?StringWidth_blanks by lia; lia.
  - exists s. split; [reflexivity|lia].
Qed.


End LayoutFacts.

Lemma nonpositive_width_fallbacks_witness :
  -3 <= 0
  /\ core.PadText r0 (gostr "abc") (-3) core.AlignCenter = Some (gostr "abc")
  /\ core.WrapText r0 (gostr "abc") (-3) = [gostr "abc"]
  /\ core.RepeatChar r0 45 (-3) = Some [].
Proof.
  split; [lia|].
  apply (nonpositive_width_fallbacks r0 (gostr "abc") 45 core.AlignCenter (-3)).
  lia.
Defined.


Section TruncateFacts.
Context {cond : runewidth.Condition}.
Import runewidth core.

(** C7, as amended.  With a budget of at least one column (the width of
    the ellipsis) the result of [TruncateText] is within the budget, and a
    result that differs from the text is a prefix of the text followed by
    one ellipsis; with a budget that is zero or negative the result is the
    empty string, without marker. *)
Theorem TruncateText_budget (r : Renderer) (s : gostring) (w : Z) :
  (w <= 0 -> TruncateText r s w = [])
  /\ (StringWidth ellipsis <= w ->
      StringWidth (TruncateText r s w) <= w
      /\ (TruncateText r s w <> s ->
          exists p rest, s = p ++ rest /\ TruncateText r s w = p ++ ellipsis)).
Proof.
  unfold TruncateText. split.
  - intro Hw. now replace (w <=? 0) with true by lia.
  - intro Hw. pose proof StringWidth_ellipsis as He.
    replace (w <=? 0) with false by lia. split.
    + now apply Truncate_width.
    + apply Truncate_marker.
Qed.

End TruncateFacts.

Lemma TruncateText_budget_witness :
  runewidth.StringWidth ellipsis <= 4
  /\ runewidth.StringWidth (core.TruncateText r0 (gostr "abcdefgh") 4) <= 4.
Proof.
  assert (H : runewidth.StringWidth ellipsis <= 4) by (vm_compute; discriminate).
  split; [exact H|].
  destruct (TruncateText_budget r0 (gostr "abcdefgh") 4) as [_ Hb].
  destruct (Hb H) as [Hw _]. exact Hw.
Defined.

(** C7, as stated, fails at budget zero: the text is cut to the empty
    string and no ellipsis is left. *)
Lemma TruncateText_zero_budget_drops_marker :
  core.TruncateText r0 (gostr "abc") 0 = []
  /\ core.TruncateText r0 (gostr "abc") 0 <> gostr "abc"
  /\ ~ (exists p, core.TruncateText r0 (gostr "abc") 0 = p ++ ellipsis).
Proof.
  split; [reflexivity|]. split; [discriminate|].
  intros [p Hp]. destruct p; discriminate Hp.
Qed.

Section WrapFacts.
Context {cond : runewidth.Condition}.
Import runewidth core.


Lemma glue_width_nonempty (cur word : gostring) :
  cur <> [] ->
  StringWidth (glue cur word) = StringWidth cur + 1 + StringWidth word.
Proof.
  intro H. unfold glue. destruct cur; [congruence|]. cbn [nonempty].
  rewrite !StringWidth_app, StringWidth_space. reflexivity.
Qed.


Lemma wrapWord_fits (w : Z) (lines : list gostring) (cur word : gostring) :
  StringWidth (glue cur word) <= w ->
  wrapWord w (lines, cur) word = (lines, glue cur word).
Proof.
  intro H. unfold wrapWord. fold (glue cur word).
  now replace (StringWidth (glue cur word) <=? w) with true by lia.
Qed.


Lemma Fields_nonempty (s : gostring) :
  Forall (fun word => word <> []) (strings.Fields s).
Proof.
  induction s as [|c s IH]; simpl; [constructor|].
  destruct (strings.IsSpace c); [exact IH|].
  destruct s as [|c' s']; [repeat constructor; discriminate|].
  destruct (strings.IsSpace c').
  - constructor; [discriminate|exact IH].
  - destruct (strings.Fields (c' :: s')) as [|word words].
    + repeat constructor; discriminate.
    + inversion IH; subst. constructor; [discriminate|assumption].
Qed.

Lemma Join_cons2 (a b : gostring) (rest : list gostring) (sep : gostring) :
  strings.Join (a :: b :: rest) sep = a ++ sep ++ strings.Join (b :: rest) sep.
Proof. reflexivity. Qed.



End WrapFacts.



Section WrapSlip.
Context {cond : runewidth.Condition}.
Import runewidth core.

Lemma wrapWord_breaks (w : Z) (lines : list gostring) (cur word : gostring) :
  cur <> [] -> w < StringWidth (glue cur word) ->
  wrapWord w (lines, cur) word = (lines ++ [cur], word).
Proof.
  intros Hc H. unfold wrapWord. fold (glue cur word).
  replace (StringWidth (glue cur word) <=? w) with false by lia.
  destruct cur; [congruence|reflexivity].
Qed.

Lemma wrapWord_truncates (w : Z) (lines : list gostring) (word : gostring) :
  w < StringWidth word ->
  wrapWord w (lines, []) word = (lines ++ [Truncate word w ellipsis], []).
Proof.
  intro H. unfold wrapWord. cbn [nonempty app].
  now replace (StringWidth word <=? w) with false by lia.
Qed.

(** C2, evaluated on the code.  The word [abcdefghij] is ten columns wide
    and the budget is five; it follows the word [hi], so the loop stores it
    as the line being filled without truncating it, and it is emitted as
    it is. *)
Theorem WrapText_emits_overwide_word (r : Renderer) :
  WrapText r (gostr "hi abcdefghij") 5 = [gostr "hi"; gostr "abcdefghij"]
  /\ StringWidth (gostr "abcdefghij") = 10.
Proof.
  assert (H2 : StringWidth (gostr "hi") = 2)
    by (rewrite StringWidth_printable by reflexivity; reflexivity).
  assert (H10 : StringWidth (gostr "abcdefghij") = 10)
    by (rewrite StringWidth_printable by reflexivity; reflexivity).
  split; [|exact H10].
  unfold WrapText. cbn [Z.leb Z.compare].
    change (strings.Fields (gostr "hi abcdefghij"))
      with [gostr "hi"; gostr "abcdefghij"].
    cbn [length Nat.eqb fold_left]. unfold emptyLines, emptyLine.
    rewrite (wrapWord_fits 5 [] [] (gostr "hi"))
      by (change (glue [] (gostr "hi")) with (gostr "hi"); lia).
    change (glue [] (gostr "hi")) with (gostr "hi").
    rewrite wrapWord_breaks; [reflexivity|discriminate|].
    rewrite glue_width_nonempty by discriminate. lia.
Qed.

End WrapSlip.

(** ** Column widths of a table *)
Lemma setAt_length {A : Type} (i : nat) (v : A) (l : list A) :
  length (setAt i v l) = length l.
Proof.
  revert i. induction l as [|a l IH]; intros [|i]; simpl; auto.
Qed.

Lemma nth_setAt {A : Type} (i j : nat) (v d : A) (l : list A) :
  nth j (setAt i v l) d
  = if (j =? i)%nat && (i <? length l)%nat then v else nth j l d.
Proof.
  revert i j. induction l as [|a l IH]; intros i j.
  - destruct i, j; simpl; rewrite ?andb_false_r; reflexivity.
  - destruct i as [|i], j as [|j]; simpl; try reflexivity.
    rewrite IH. reflexivity.
Qed.

Section ColumnWidthFacts.
Context {cond : runewidth.Condition}.
Import runewidth core Table.

Lemma updateLoop_length (row : list gostring) :
  forall i widths, length (updateLoop i row widths) = length widths.
Proof.
  induction row as [|cell row IH]; intros i widths; simpl; [reflexivity|].
  rewrite IH.
  destruct (Z.of_nat i <? len widths); [|reflexivity].
  destruct (StringWidth cell >? nth i widths 0); [|reflexivity].
  apply setAt_length.
Qed.

(** What the loop leaves in column [j]: the larger of the old width and
    of the width of the cell of that column, when the row has one. *)
Lemma updateLoop_nth (row : list gostring) :
  forall i widths j,
    nth j (updateLoop i row widths) 0
    = if (i <=? j)%nat && (j <? i + length row)%nat && (j <? length widths)%nat
      then Z.max (nth j widths 0) (StringWidth (nth (j - i) row []))
      else nth j widths 0.
Proof.
  induction row as [|cell row IH]; intros i widths j.
  - simpl. destruct (i <=? j)%nat eqn:E; [|reflexivity].
    apply Nat.leb_le in E.
    replace (j <? i + 0)%nat with false; [reflexivity|].
    symmetry. apply Nat.ltb_ge. lia.
  - cbn [updateLoop]. rewrite IH. unfold len.
    set (widths' := if Z.of_nat i <? Z.of_nat (length widths)
                    then if StringWidth cell >? nth i widths 0
                         then setAt i (StringWidth cell) widths else widths
                    else widths).
    assert (Hlen : length widths' = length widths).
    { unfold widths'. destruct (_ <? _); [|reflexivity].
      destruct (_ >? _); [apply setAt_length|reflexivity]. }
    assert (Hnth : forall k, nth k widths' 0
              = if (k =? i)%nat && (i <? length widths)%nat
                then Z.max (nth i widths 0) (StringWidth cell)
                else nth k widths 0).
    { intro k. unfold widths'.
      destruct (Z.of_nat i <? Z.of_nat (length widths)) eqn:E1.
      - assert (E2 : (i <? length widths)%nat = true)
          by (apply Nat.ltb_lt; lia).
        rewrite E2, andb_true_r.
        destruct (StringWidth cell >? nth i widths 0) eqn:E3.
        + rewrite nth_setAt, E2, andb_true_r.
          destruct (k =? i)%nat; [lia|reflexivity].
        + destruct (k =? i)%nat eqn:E4; [|reflexivity].
          apply Nat.eqb_eq in E4. subst k. lia.
      - assert (E2 : (i <? length widths)%nat = false)
          by (apply Nat.ltb_ge; lia).
        now rewrite E2, andb_false_r. }
    rewrite Hlen, Hnth. cbn [length].
    destruct (Nat.lt_trichotomy j i) as [Hji | [Hji | Hji]].
    + replace (S i <=? j)%nat with false by (symmetry; apply Nat.leb_gt; lia).
      replace (i <=? j)%nat with false by (symmetry; apply Nat.leb_gt; lia).
      replace (j =? i)%nat with false by (symmetry; apply Nat.eqb_neq; lia).
      reflexivity.
    + subst j.
      replace (S i <=? i)%nat with false by (symmetry; apply Nat.leb_gt; lia).
      rewrite Nat.leb_refl, Nat.eqb_refl, Nat.sub_diag.
      replace (i <? i + S (length row))%nat with true
        by (symmetry; apply Nat.ltb_lt; lia).
      reflexivity.
    + replace (S i <=? j)%nat with true by (symmetry; apply Nat.leb_le; lia).
      replace (i <=? j)%nat with true by (symmetry; apply Nat.leb_le; lia).
      replace (j =? i)%nat with false by (symmetry; apply Nat.eqb_neq; lia).
      replace (j <? i + S (length row))%nat with (j <? S i + length row)%nat
        by (f_equal; lia).
      replace (j - i)%nat with (S (j - S i)) by lia.
      reflexivity.
Qed.

(** C8. Adding a row keeps the number of columns and never decreases a
    column width: every column keeps its width or grows to the width of
    the new cell of that column. *)
Theorem AddRow_widths_monotone (t : Table) (row : list gostring) :
  length (columnWidths (AddRow t row)) = length (columnWidths t)
  /\ forall i,
       nth i (columnWidths t) 0 <= nth i (columnWidths (AddRow t row)) 0
       /\ (nth i (columnWidths (AddRow t row)) 0 = nth i (columnWidths t) 0
           \/ nth i (columnWidths (AddRow t row)) 0
              = StringWidth (nth i row [])).
Proof.
  unfold AddRow, updateColumnWidthsForRow. cbn [columnWidths setWidths setRows].
  split; [apply updateLoop_length|].
  intro i. rewrite updateLoop_nth, Nat.sub_0_r.
  destruct (_ && _ && _); lia.
Qed.

End ColumnWidthFacts.

(** ** Hidden components *)
Section Hidden.
Context {cond : runewidth.Condition}.
Import core.

(** C10. A hidden box renders as the empty string, and so does a table
    that is hidden or has no headers, whatever the theme. *)
Theorem hidden_renders_empty (theme : style.Theme) :
  (forall b : Box.Box,
      IsHidden (Box.Component b) = true -> Box.Render b theme = Some [])
  /\ (forall t : Table.Table,
        IsHidden (Table.Component t) = true \/ Table.headers t = [] ->
        Table.Render t theme = Some []).
Proof.
  split.
  - intros b H. unfold Box.Render. now rewrite H.
  - intros t [H | H]; unfold Table.Render.
    + now rewrite H.
    + rewrite H. cbn [len length Z.of_nat Z.eqb]. now rewrite orb_true_r.
Qed.

End Hidden.

Lemma hidden_renders_empty_witness :
  Box.Render (Box.BoxHide (Box.Content Box.NewBox (gostr "secret"))) style.NewTheme
  = Some []
  /\ Table.Render (Table.Hide (Table.Headers Table.NewTable [gostr "Name"]))
       style.NewTheme = Some []
  /\ Table.Render (Table.AddRow Table.NewTable [gostr "Alice"]) style.NewTheme
     = Some [].
Proof.
  destruct (hidden_renders_empty style.NewTheme) as [Hb Ht].
  split; [apply Hb; reflexivity|].
  split; apply Ht; [left|right]; reflexivity.
Defined.

(** ** Height of a box *)
Section BoxHeight.
Context {cond : runewidth.Condition}.
Import runewidth core Box.

(** C4, evaluated on the code.  A box nine columns wide with padding one
    has an interior of five columns; its content wraps into three lines,
    but the height is computed from the ceiling of 10 / 5 = 2 lines, so
    it is six where three content lines need seven. *)
Theorem calculateHeight_undercounts_wrapped_lines :
  let b := BoxWidth (Content NewBox (gostr "aaa bbb cc")) 9 in
  wrapContent b (9 - 2 * padding b - 2) = [gostr "aaa"; gostr "bbb"; gostr "cc"]
  /\ calculateHeight b 9 = 6
  /\ calculateHeight b 9 <> len (wrapContent b (9 - 2 * padding b - 2))
                            + 2 * padding b + 2.
Proof.
  intro b.
  assert (H3 : StringWidth (gostr "aaa") = 3)
    by (rewrite StringWidth_printable by reflexivity; reflexivity).
  assert (H3' : StringWidth (gostr "bbb") = 3)
    by (rewrite StringWidth_printable by reflexivity; reflexivity).
  assert (H2 : StringWidth (gostr "cc") = 2)
    by (rewrite StringWidth_printable by reflexivity; reflexivity).
  assert (H10 : StringWidth (gostr "aaa bbb cc") = 10)
    by (rewrite StringWidth_printable by reflexivity; reflexivity).
  assert (Hw : wrapContent b (9 - 2 * padding b - 2)
               = [gostr "aaa"; gostr "bbb"; gostr "cc"]).
  { unfold wrapContent, b. cbn [padding BoxWidth withComponent Content NewBox content].
    change (9 - 2 * 1 - 2) with 5. cbn [Z.leb Z.compare].
    change (strings.Split (gostr "aaa bbb cc") lineFeed) with [gostr "aaa bbb cc"].
    cbn [fold_left app]. unfold wrapLine.
    change (nonempty (gostr "aaa bbb cc")) with true. cbv iota.
    change (strings.Fields (gostr "aaa bbb cc"))
      with [gostr "aaa"; gostr "bbb"; gostr "cc"].
    cbn [length Nat.eqb fold_left]. unfold emptyLines, emptyLine.
    rewrite (wrapWord_fits 5 [] [] (gostr "aaa"))
      by (change (glue [] (gostr "aaa")) with (gostr "aaa"); lia).
    change (glue [] (gostr "aaa")) with (gostr "aaa").
    rewrite wrapWord_breaks;
      [|discriminate|rewrite glue_width_nonempty by discriminate; lia].
    rewrite wrapWord_breaks;
      [|discriminate|rewrite glue_width_nonempty by discriminate; lia].
    reflexivity. }
  assert (Hh : calculateHeight b 9 = 6).
  { unfold calculateHeight, b.
    cbn [padding BoxWidth withComponent Content NewBox content title nonempty].
    change (9 - 1 * 2 - 2) with 5. cbn [Z.leb Z.compare].
    change (strings.Split (gostr "aaa bbb cc") lineFeed) with [gostr "aaa bbb cc"].
    cbn [fold_left]. change (nonempty (gostr "aaa bbb cc")) with true.
    cbv iota. rewrite H10. reflexivity. }
  split; [exact Hw|]. split; [exact Hh|].
  rewrite Hw, Hh. discriminate.
Qed.

End BoxHeight.

(** ** Measuring decorated text *)

Section MeasureFacts.
Context {cond : runewidth.Condition}.
Import runewidth core color.

Lemma stripLoop_app (a b : gostring) :
  forall st,
    stripLoop st (a ++ b)
    = (fst (stripLoop st a) ++ fst (stripLoop (snd (stripLoop st a)) b),
       snd (stripLoop (snd (stripLoop st a)) b)).
Proof.
  induction a as [|r a IH]; intro st.
  - simpl. now destruct (stripLoop st b).
  - cbn [app stripLoop]. destruct (r =? 27); [apply IH|].
    destruct st; [apply IH|].
    rewrite IH. destruct (stripLoop false a) as [o st1]. reflexivity.
Qed.

Lemma lays_nil : lays [] 0.
Proof. repeat split. intros []. Qed.

Lemma lays_app (a b : gostring) (n m : Z) :
  lays a n -> lays b m -> lays (a ++ b) (n + m).
Proof.
  intros (Ha1 & Ha2 & Ha3) (Hb1 & Hb2 & Hb3).
  unfold lays, MeasureText, StripANSI in *.
  rewrite stripLoop_app, Ha1. cbn [fst snd].
  rewrite StringWidth_app, Ha2, Hb2. repeat split; [exact Hb1|].
  intro H. apply in_app_or in H. tauto.
Qed.

Lemma lays_measure (s : gostring) (n : Z) : lays s n -> MeasureText s = n.
Proof. now intros (_ & H & _). Qed.

Lemma lays_eq (s : gostring) (n m : Z) : lays s n -> n = m -> lays s m.
Proof. now intros H <-. Qed.

Lemma stripLoop_plain (s : gostring) :
  forallb plainRune s = true -> stripLoop false s = (s, false).
Proof.
  induction s as [|r s IH]; [reflexivity|].
  cbn [forallb]. intro H. apply andb_prop in H as [Hr Hs].
  cbn [stripLoop]. unfold plainRune in Hr.
  destruct (r =? 27); [discriminate|]. now rewrite IH.
Qed.

Lemma plain_no_lineFeed (s : gostring) :
  forallb plainRune s = true -> ~ In lineFeed s.
Proof.
  rewrite forallb_forall. intros H Hin. specialize (H _ Hin).
  discriminate H.
Qed.


Lemma lays_plain (s : gostring) :
  forallb plainRune s = true -> lays s (StringWidth s).
Proof.
  intro H. unfold lays, MeasureText, StripANSI.
  rewrite stripLoop_plain by exact H.
  repeat split. now apply plain_no_lineFeed.
Qed.

Lemma MeasureText_plain (s : gostring) :
  forallb plainRune s = true -> MeasureText s = StringWidth s.
Proof. intro H. now apply lays_measure, lays_plain. Qed.

Lemma closed_plain (s : gostring) : ~ In 27 s -> closed s.
Proof.
  unfold closed. induction s as [|r s IH]; intro H; [reflexivity|].
  cbn [stripLoop]. replace (r =? 27) with false
    by (symmetry; apply Z.eqb_neq; intros ->; apply H; now left).
  destruct (stripLoop false s) as [o st] eqn:E. cbn [snd] in *.
  apply IH. intro Hin. apply H. now right.
Qed.


(** Stripping removes runes, so it never widens a text. *)
Lemma stripLoop_width (s : gostring) :
  forall st, StringWidth (fst (stripLoop st s)) <= StringWidth s.
Proof.
  induction s as [|r s IH]; intro st; [simpl; lia|].
  cbn [stripLoop StringWidth]. pose proof (RuneWidth_range r).
  destruct (r =? 27); [specialize (IH true); lia|].
  destruct st; [specialize (IH (if isLetter r then false else true)); lia|].
  specialize (IH false). destruct (stripLoop false s) as [o st'].
  cbn [fst StringWidth] in *. lia.
Qed.


Lemma Truncate_plain (s : gostring) (w : Z) :
  forallb plainRune s = true ->
  forallb plainRune (Truncate s w ellipsis) = true.
Proof.
  intro H. unfold Truncate. destruct (StringWidth s <=? w); [exact H|].
  destruct (truncateLoop_split s 0 (w - StringWidth ellipsis)) as [rest Hrest].
  rewrite Hrest, forallb_app in H. apply andb_prop in H as [H _].
  now rewrite forallb_app, H.
Qed.



(** Text without escape rune is left as it is, so both measures agree on
    it; in particular on what [PadText] returns for such a text. *)
Lemma StripANSI_no_escape (s : gostring) : ~ In 27 s -> StripANSI s = s.
Proof.
  unfold StripANSI. induction s as [|r s IH]; intro H; [reflexivity|].
  cbn [stripLoop]. replace (r =? 27) with false
    by (symmetry; apply Z.eqb_neq; intros ->; apply H; now left).
  destruct (stripLoop false s) as [o st] eqn:E. cbn [fst] in *.
  f_equal. apply IH. intro Hin. apply H. now right.
Qed.

Lemma blanks_no_escape (n : Z) : ~ In 27 (blanks n).
Proof. intro H. apply repeat_spec in H. discriminate H. Qed.

Lemma PadText_measure (r : Renderer) (s : gostring) (w : Z) (align : Alignment) :
  ~ In 27 s -> MeasureText s <= w ->
  exists out, PadText r s w align = Some out /\ MeasureText out = w.
Proof.
  intros Hesc Hw. unfold MeasureText in Hw.
  rewrite StripANSI_no_escape in Hw by exact Hesc.
  destruct (PadText_width r s w align Hw) as (out & Hout & Hwidth).
  exists out. split; [exact Hout|].
  unfold MeasureText. rewrite StripANSI_no_escape; [exact Hwidth|].
  rewrite PadText_shape in Hout by exact Hw.
  pose proof blanks_no_escape as Hb.
  destruct (0 <? w - StringWidth s);
    [destruct (align =? AlignLeft); [|destruct (align =? AlignRight);
       [|destruct (align =? AlignCenter)]]|];
    injection Hout as <-; intro Hin;
    repeat (apply in_app_or in Hin as [Hin | Hin]);
    try (now apply Hesc); now apply Hb in Hin.
Qed.

(** *** Colour sequences *)
Lemma digits_seqRune (u : Decimal.uint) : forallb seqRune (digits u) = true.
Proof. induction u; simpl; auto. Qed.

Lemma Itoa_seqRune (n : Z) : forallb seqRune (Itoa n) = true.
Proof.
  unfold Itoa. destruct (Z.to_int n); [apply digits_seqRune|].
  cbn [forallb]. now rewrite digits_seqRune.
Qed.

Lemma forallb_Join (P : rune -> bool) (elems : list gostring) (sep : gostring) :
  forallb P sep = true ->
  Forall (fun e => forallb P e = true) elems ->
  forallb P (strings.Join elems sep) = true.
Proof.
  intros Hsep. induction 1 as [|e elems He _ IH]; [reflexivity|].
  destruct elems as [|e' elems]; [exact He|].
  change (strings.Join (e :: e' :: elems) sep)
    with (e ++ sep ++ strings.Join (e' :: elems) sep).
  rewrite !forallb_app, He, Hsep, IH. reflexivity.
Qed.

Lemma sequence_seqRune (c : Color) : forallb seqRune (sequence c) = true.
Proof.
  unfold sequence. apply forallb_Join; [reflexivity|].
  apply Forall_forall. intros e He. apply in_map_iff in He as (n & <- & _).
  apply Itoa_seqRune.
Qed.

Lemma stripLoop_escape_body (body rest : gostring) :
  forallb seqRune body = true ->
  stripLoop true (body ++ 109 :: rest) = stripLoop false rest.
Proof.
  induction body as [|r body IH]; intro H; [reflexivity|].
  cbn [forallb] in H. apply andb_prop in H as [Hr Hb].
  cbn [app stripLoop]. unfold seqRune in Hr.
  destruct (r =? 27); [discriminate|].
  destruct (isLetter r); [discriminate|]. now apply IH.
Qed.

Lemma stripLoop_format (c : Color) (rest : gostring) :
  stripLoop false (format c ++ rest) = stripLoop false rest.
Proof.
  unfold format, escape. cbn [app gostr].
  change (Z.of_nat (nat_of_ascii "[")) with 91.
  change (Z.of_nat (nat_of_ascii "m")) with 109.
  cbn [stripLoop Z.eqb Pos.eqb].
  rewrite <- app_assoc. cbn [app].
  change (91 :: sequence c ++ 109 :: rest) with ((91 :: sequence c) ++ 109 :: rest).
  apply stripLoop_escape_body. cbn [forallb]. now rewrite sequence_seqRune.
Qed.

Lemma stripLoop_unformat (c : Color) (st : bool) :
  stripLoop st (unformat c) = ([], false).
Proof. destruct st; reflexivity. Qed.

Lemma format_no_lineFeed (c : Color) : ~ In lineFeed (format c).
Proof.
  unfold format. intros [H | H]; [discriminate H|].
  apply in_app_or in H as [H | H].
  - destruct H as [H | []]. discriminate H.
  - apply in_app_or in H as [H | H].
    + pose proof (sequence_seqRune c) as Hs. rewrite forallb_forall in Hs.
      specialize (Hs _ H). discriminate Hs.
    + destruct H as [H | []]. discriminate H.
Qed.

(** Decoration is width-neutral: a painted text lays like the text. *)
Lemma lays_Sprint (c : Color) (x : gostring) (n : Z) :
  lays x n -> lays (Sprint c x) n.
Proof.
  intros (Hx1 & Hx2 & Hx3). unfold Sprint.
  destruct (noColor c); [now repeat split|].
  unfold lays, MeasureText, StripANSI in *.
  rewrite stripLoop_format, stripLoop_app, stripLoop_unformat.
  cbn [fst snd]. rewrite app_nil_r. repeat split; [exact Hx2|].
  intro H. apply in_app_or in H as [H | H]; [now apply (format_no_lineFeed c)|].
  apply in_app_or in H as [H | H]; [tauto|].
  unfold unformat in H. cbn in H.
  repeat (destruct H as [H | H]; [discriminate H|]). exact H.
Qed.

Lemma lays_concat_repeat (s : gostring) (n : Z) (k : nat) :
  lays s n -> lays (List.concat (repeat s k)) (Z.of_nat k * n).
Proof.
  intro Hs. induction k as [|k IH]; [apply lays_nil|].
  cbn [repeat List.concat].
  replace (Z.of_nat (S k) * n) with (n + Z.of_nat k * n) by lia.
  now apply lays_app.
Qed.

Lemma lays_Repeat (s : gostring) (n k : Z) :
  lays s n -> 0 <= k ->
  exists out, strings.Repeat s k = Some out /\ lays out (k * n).
Proof.
  intros Hs Hk. rewrite Repeat_nonneg by exact Hk.
  eexists. split; [reflexivity|].
  rewrite <- (Z2Nat.id k) at 2 by exact Hk. now apply lays_concat_repeat.
Qed.

End MeasureFacts.

(** ** Lines of a joined text, loops *)
Lemma Split_no_sep (a : gostring) (sep : rune) :
  ~ In sep a -> strings.Split a sep = [a].
Proof.
  induction a as [|r a IH]; intro H; [reflexivity|].
  cbn [strings.Split]. destruct (r =? sep) eqn:E.
  - exfalso. apply H. left. lia.
  - rewrite IH; [reflexivity|]. intro Hin. apply H. now right.
Qed.

Lemma Split_app_sep (a b : gostring) (sep : rune) :
  ~ In sep a -> strings.Split (a ++ sep :: b) sep = a :: strings.Split b sep.
Proof.
  induction a as [|r a IH]; intro H.
  - cbn [app strings.Split]. now rewrite Z.eqb_refl.
  - cbn [app strings.Split]. destruct (r =? sep) eqn:E.
    + exfalso. apply H. left. lia.
    + rewrite IH; [reflexivity|]. intro Hin. apply H. now right.
Qed.

Lemma Split_Join (rows : list gostring) (sep : rune) :
  rows <> [] -> Forall (fun row => ~ In sep row) rows ->
  strings.Split (strings.Join rows [sep]) sep = rows.
Proof.
  intros Hne Hrows. revert Hne.
  induction Hrows as [|row rows Hrow Hrows IH]; intro Hne;
    [exfalso; now apply Hne|].
  destruct rows as [|row' rows].
  - now apply Split_no_sep.
  - change (strings.Join (row :: row' :: rows) [sep])
      with (row ++ sep :: strings.Join (row' :: rows) [sep]).
    rewrite Split_app_sep by exact Hrow. f_equal. apply IH. discriminate.
Qed.

Lemma Split_pieces (s : gostring) (sep : rune) :
  Forall (fun piece => ~ In sep piece /\ incl piece s) (strings.Split s sep).
Proof.
  induction s as [|r s IH]; cbn [strings.Split].
  - constructor; [|constructor]. split; [intros []|apply incl_refl].
  - destruct (r =? sep) eqn:E.
    + constructor; [split; [intros []|intros x []]|].
      eapply Forall_impl; [|exact IH]. intros piece [H1 H2].
      split; [exact H1|]. now apply incl_tl.
    + destruct (strings.Split s sep) as [|piece pieces].
      * constructor; [|constructor]. split.
        -- intros [H | []]. lia.
        -- intros x [<- | []]. now left.
      * inversion IH as [|? ? [H1 H2] Hrest]; subst. constructor.
        -- split.
           ++ intros [H | H]; [lia|tauto].
           ++ intros x [<- | H]; [now left|right; now apply H2].
        -- eapply Forall_impl; [|exact Hrest]. intros p [Hp1 Hp2].
           split; [exact Hp1|]. now apply incl_tl.
Qed.

Lemma Fields_words (s : gostring) :
  Forall (fun word => incl word s) (strings.Fields s).
Proof.
  induction s as [|r s IH]; cbn [strings.Fields]; [constructor|].
  assert (Htl : Forall (fun word => incl word (r :: s)) (strings.Fields s)).
  { eapply Forall_impl; [|exact IH]. intros word H. now apply incl_tl. }
  destruct (strings.IsSpace r); [exact Htl|].
  destruct s as [|r' s'].
  - constructor; [apply incl_refl|constructor].
  - destruct (strings.IsSpace r').
    + constructor; [|exact Htl]. intros x [<- | []]. now left.
    + destruct (strings.Fields (r' :: s')) as [|word words].
      * constructor; [|constructor]. intros x [<- | []]. now left.
      * inversion Htl as [|? ? Hw Hws]; subst. constructor; [|exact Hws].
        intros x [<- | H]; [now left|now apply Hw].
Qed.

Lemma mapM_Forall {A B : Type} (f : A -> option B) (P : B -> Prop) (l : list A) :
  (forall a, In a l -> exists b, f a = Some b /\ P b) ->
  exists bs, mapM f l = Some bs /\ Forall P bs /\ length bs = length l.
Proof.
  induction l as [|a l IH]; intro H.
  - exists []. repeat split; constructor.
  - destruct (H a (or_introl eq_refl)) as (b & Hb & HP).
    destruct IH as (bs & Hbs & HPs & Hlen); [intros; apply H; now right|].
    exists (b :: bs). cbn [mapM]. rewrite Hb. cbn [bind]. rewrite Hbs.
    repeat split; [now constructor|simpl; now rewrite Hlen].
Qed.

Lemma forRange_Forall {A : Type} (n : Z) (body : Z -> option A) (P : A -> Prop) :
  (forall i, 0 <= i < n -> exists a, body i = Some a /\ P a) ->
  exists l, forRange n body = Some l /\ Forall P l /\ len l = Z.max 0 n.
Proof.
  intro H. unfold forRange.
  destruct (mapM_Forall body P (map Z.of_nat (seq 0 (Z.to_nat n))))
    as (l & Hl & HP & Hlen).
  - intros i Hi. apply in_map_iff in Hi as (k & <- & Hk).
    apply in_seq in Hk. apply H. lia.
  - exists l. repeat split; [exact Hl|exact HP|].
    unfold len. rewrite Hlen, length_map, length_seq. lia.
Qed.

Lemma fold_left_app_flat_map {A B : Type} (f : A -> list B) (l : list A) :
  forall acc, fold_left (fun result a => result ++ f a) l acc = acc ++ flat_map f l.
Proof.
  induction l as [|a l IH]; intro acc; cbn [fold_left flat_map].
  - now rewrite app_nil_r.
  - now rewrite IH, app_assoc.
Qed.

(** ** Width of a bordered box *)
Section BoxWidthFacts.
Context {cond : runewidth.Condition}.
Import runewidth core color style Box.







(** Content without escape runes has closed words. *)
Lemma plain_content_words_closed (b : Box) :
  ~ In 27 (content b) -> Forall closed (contentWords b).
Proof.
  intro Hesc. apply Forall_forall. intros word Hword.
  unfold contentWords in Hword. apply in_flat_map in Hword as (line & Hline & Hw).
  pose proof (Split_pieces (content b) lineFeed) as Hp.
  rewrite Forall_forall in Hp. destruct (Hp line Hline) as [_ Hincl].
  pose proof (Fields_words line) as Hfw. rewrite Forall_forall in Hfw.
  apply closed_plain. intro Hin. now apply Hesc, Hincl, (Hfw word Hw).
Qed.

End BoxWidthFacts.

Section BoxRows.
Context {cond : runewidth.Condition}.
Import runewidth core color style Box.










End BoxRows.



(** ** The repository's tests, run on the model *)

Example TestBoxTitleAlignment_short :
  topLineOf (testBox (gostr "Test") 20)
  = Some ([9581] ++ [9472; 9472; 9472; 9472; 9472] ++ gostr "[ Test ]"
          ++ [9472; 9472; 9472; 9472; 9472] ++ [9582]).
Proof. reflexivity. Qed.

Example TestBoxTitleAlignment_truncated :
  topLineOf (testBox (gostr "Very Long Title That Should Be Truncated") 25)
  = Some ([9581] ++ gostr "[ Very Long Title Th" ++ ellipsis ++ gostr " ]"
          ++ [9582]).
Proof. reflexivity. Qed.

Example TestBoxTitleAlignment_emoji :
  topLineOf (testBox ([128640] ++ gostr " Title") 25)
  = Some ([9581] ++ [9472; 9472; 9472; 9472; 9472] ++ gostr "[ " ++ [128640]
          ++ gostr " Title ]" ++ [9472; 9472; 9472; 9472; 9472; 9472] ++ [9582]).
Proof. reflexivity. Qed.

Example TestBoxWithoutTitle :
  topLineOf (Box.BoxWidth (Box.Content Box.NewBox (gostr "Test content")) 20)
  = Some ([9581] ++ repeat 9472 18 ++ [9582]).
Proof. reflexivity. Qed.

Example TestBoxContentAlignment :
  option_map (fun out => firstn 22 (core.StripANSI
                           (nth 2 (strings.Split out lineFeed) [])))
             (Box.Render
                (Box.BoxWidth
                   (Box.Content (Box.Title Box.NewBox (gostr "Test"))
                      (gostr "Left aligned content")) 30)
                style.NewTheme)
  = Some ([9474] ++ gostr " Left aligned content").
Proof. reflexivity. Qed.

(** ** Boxes outside the amended C1 *)

(** The default box with no content has an interior of zero columns,
    which the renderer raises to one, so its content row is one column
    wider than the box. *)
Example empty_box_content_row_overflows :
  resolvedWidth Box.NewBox = 4
  /\ measuredLines Box.NewBox = Some [4; 4; 5; 4; 4].
Proof. split; reflexivity. Qed.

(** A title of wide runes is cut one column short of the bracket space,
    and the top border is one column short of the box. *)
Example wide_title_top_border_short :
  measuredLines
    (Box.BoxWidth
       (Box.Title Box.NewBox [19990; 30028; 19990; 30028; 19990; 30028]) 12)
  = Some [11; 12; 12; 12; 12; 12].
Proof. reflexivity. Qed.

(** A box too narrow for the brackets still draws them. *)
Example narrow_titled_box_top_border_long :
  measuredLines (Box.BoxWidth (Box.Title Box.NewBox (gostr "Test")) 5)
  = Some [7; 5; 5; 5; 5; 5].
Proof. reflexivity. Qed.

(** The over-wide word of C2 makes a row wider than the box. *)
Example overwide_word_row_overflows :
  measuredLines
    (Box.BoxWidth (Box.Content Box.NewBox (gostr "hi abcdefghij")) 10)
  = Some [10; 10; 10; 14; 10; 10; 10].
Proof. reflexivity. Qed.

(** Negative padding makes [strings.Repeat] panic. *)
Example negative_padding_panics :
  Box.Render
    (Box.BoxHeight
       (Box.BoxWidth (Box.Padding (Box.Content Box.NewBox (gostr "x")) (-1)) 10)
       5)
    style.NewTheme = None.
Proof. reflexivity. Qed.

(** Inside the amended C1: content that carries its own, closed colour
    sequences. *)
Example coloured_content_keeps_width :
  measuredLines
    (Box.BoxWidth
       (Box.Content Box.NewBox
          ([27] ++ gostr "[31mred" ++ [27] ++ gostr "[0m text")) 24)
  = Some [24; 24; 24; 24; 24].
Proof. reflexivity. Qed.

(** With the height of C4's box, the third wrapped line is not drawn. *)
Example undercounted_height_drops_line :
  option_map (fun out => map core.StripANSI (strings.Split out lineFeed))
             (Box.Render (Box.BoxWidth (Box.Content Box.NewBox (gostr "aaa bbb cc")) 9)
                         style.NewTheme)
  = Some [ [9581] ++ repeat 9472 7 ++ [9582];
           [9474] ++ gostr "       " ++ [9474];
           [9474] ++ gostr " aaa   " ++ [9474];
           [9474] ++ gostr " bbb   " ++ [9474];
           [9474] ++ gostr "       " ++ [9474];
           [9584] ++ repeat 9472 7 ++ [9583] ].
Proof. reflexivity. Qed.

(** ** Width of a bordered table *)
Section TableRows.
Context {cond : runewidth.Condition}.
Import runewidth core color style Table.

Lemma blanks_plain (n : Z) : forallb plainRune (blanks n) = true.
Proof.
  unfold blanks. induction (Z.to_nat n) as [|k IH]; [reflexivity|exact IH].
Qed.


Lemma forEach_Forall {A B : Type} (f : nat -> A -> option B) (P : B -> Prop)
    (l : list A) :
  forall k,
    (forall i a, In a l -> exists b, f i a = Some b /\ P b) ->
    exists bs, forEach f k l = Some bs /\ Forall P bs.
Proof.
  induction l as [|a l IH]; intros k H.
  - exists []. split; [reflexivity|constructor].
  - destruct (H k a (or_introl eq_refl)) as (b & Hb & HP).
    destruct (IH (S k)) as (bs & Hbs & HPs); [intros; apply H; now right|].
    exists (b :: bs). cbn [forEach]. rewrite Hb. cbn [bind]. rewrite Hbs.
    split; [reflexivity|now constructor].
Qed.




(** The padded cell of a plain cell is plain and fills its column. *)
Lemma paddedCell_lays (t : Table) (cells : list gostring) (i : nat) (w : Z) :
  1 <= w -> Forall plainCell cells ->
  exists out, paddedCell t cells i w = Some out /\ lays out w.
Proof.
  intros Hw Hcells. unfold paddedCell.
  set (cell := if Z.of_nat i <? len cells then nth i cells [] else []).
  assert (Hcell : forallb plainRune cell = true).
  { unfold cell. destruct (Z.of_nat i <? len cells) eqn:E; [|reflexivity].
    rewrite Forall_forall in Hcells. apply Hcells, nth_In.
    unfold len in E. lia. }
  set (cell' := if StringWidth cell >? w then Truncate cell w ellipsis else cell).
  assert (Hp : forallb plainRune cell' = true).
  { unfold cell'. destruct (StringWidth cell >? w); [|exact Hcell].
    now apply Truncate_plain. }
  assert (Hc : StringWidth cell' <= w).
  { unfold cell'. destruct (StringWidth cell >? w) eqn:E; [|lia].
    apply Truncate_width. rewrite StringWidth_ellipsis. exact Hw. }
  destruct (PadText_width (NewRenderer w 1) cell' w (getAlignment t i) Hc)
    as (out & Hout & Hwidth).
  exists out. split; [exact Hout|].
  rewrite <- Hwidth. apply lays_plain.
  rewrite PadText_shape in Hout by exact Hc.
  pose proof blanks_plain as Hb.
  destruct (0 <? w - StringWidth cell');
    [destruct (getAlignment t i =? AlignLeft);
       [|destruct (getAlignment t i =? AlignRight);
          [|destruct (getAlignment t i =? AlignCenter)]]|];
    injection Hout as <-; rewrite ?forallb_app, ?Hb, ?Hp; reflexivity.
Qed.



End TableRows.

Section ExplicitWidths.
Context {cond : runewidth.Condition}.
Import runewidth core Table.



End ExplicitWidths.



(** The specification's table scenario: the second column grows to the
    nine columns of [Developer], and the top border has a down-tee between
    the two column segments. *)
Example table_scenario :
  let t := Table.AddRow (Table.Headers Table.NewTable [gostr "Name"; gostr "Role"])
                        [gostr "Alice"; gostr "Developer"] in
  Table.columnWidths t = [5; 9]
  /\ option_map (fun out => core.StripANSI (hd [] (strings.Split out lineFeed)))
                (Table.Render t style.NewTheme)
     = Some ([9581] ++ repeat 9472 7 ++ [9516] ++ repeat 9472 11 ++ [9582]).
Proof. split; reflexivity. Qed.


(** * Further properties of the layout engine *)
Section StripFacts.
Context {cond : runewidth.Condition}.
Import runewidth core color.

Lemma stripLoop_no_escape (s : gostring) :
  forall st, ~ In 27 (fst (stripLoop st s)).
Proof.
  induction s as [|r s IH]; intro st; [intros []|].
  cbn [stripLoop]. destruct (r =? 27) eqn:E; [apply IH|].
  destruct st; [apply IH|].
  specialize (IH false). destruct (stripLoop false s) as [o st'].
  cbn [fst] in *. intros [H | H]; [lia|contradiction].
Qed.

(** X1. [StripANSI] leaves no escape rune in its result, so stripping
    twice is stripping once, and the stripped text is never wider than
    the text. *)
Theorem StripANSI_idempotent (s : gostring) :
  ~ In 27 (StripANSI s)
  /\ StripANSI (StripANSI s) = StripANSI s
  /\ MeasureText s <= StringWidth s.
Proof.
  assert (H : ~ In 27 (StripANSI s)) by apply stripLoop_no_escape.
  split; [exact H|]. split; [now apply StripANSI_no_escape|].
  apply stripLoop_width.
Qed.

(** X2. Painting a text with a colour does not change what [StripANSI]
    and [MeasureText] see, whatever the text and the colour; and when
    colours are on, a painted text followed by more text strips to the
    stripped text followed by the stripped rest. *)
Theorem Sprint_is_width_neutral (c : Color) (s rest : gostring) :
  StripANSI (Sprint c s) = StripANSI s
  /\ MeasureText (Sprint c s) = MeasureText s
  /\ (noColor c = false ->
      StripANSI (Sprint c s ++ rest) = StripANSI s ++ StripANSI rest).
Proof.
  assert (Hon : noColor c = false ->
                forall tail, StripANSI (Sprint c s ++ tail)
                             = StripANSI s ++ StripANSI tail).
  { intros Hc tail. unfold Sprint, StripANSI. rewrite Hc.
    rewrite <- !app_assoc, stripLoop_format, stripLoop_app. cbn [fst].
    rewrite stripLoop_app, stripLoop_unformat. reflexivity. }
  assert (H : StripANSI (Sprint c s) = StripANSI s).
  { destruct (noColor c) eqn:Hc; [unfold Sprint; now rewrite Hc|].
    rewrite <- (app_nil_r (Sprint c s)), Hon by reflexivity.
    apply app_nil_r. }
  split; [exact H|]. split; [unfold MeasureText; now rewrite H|].
  intro Hc. now apply Hon.
Qed.

End StripFacts.

Lemma Sprint_is_width_neutral_witness :
  core.StripANSI
    (color.Sprint (color.New [color.FgHiCyan]) (gostr "ok") ++ gostr "!")
  = gostr "ok!".
Proof.
  destruct (Sprint_is_width_neutral (color.New [color.FgHiCyan]) (gostr "ok")
              (gostr "!")) as (_ & _ & H).
  exact (H eq_refl).
Defined.

Section RepeatPadFacts.
Context {cond : runewidth.Condition}.
Import runewidth core.

Lemma concat_repeat_singleton (c : rune) (n : nat) :
  List.concat (repeat [c] n) = repeat c n.
Proof. induction n as [|n IH]; [reflexivity|]. simpl. now rewrite IH. Qed.

Lemma StringWidth_repeat (c : rune) (n : nat) :
  StringWidth (repeat c n) = Z.of_nat n * RuneWidth c.
Proof.
  induction n as [|n IH]; [reflexivity|].
  cbn [repeat StringWidth]. rewrite IH. lia.
Qed.

(** X3. For a positive width [RepeatChar] returns copies of the rune and
    nothing else, never wider than the width; with a rune of one or two
    columns less than one rune is missing to fill the width (so a
    one-column rune fills it exactly). *)
Theorem RepeatChar_fills (r : Renderer) (c : rune) (w : Z) :
  0 < w ->
  exists out,
    RepeatChar r c w = Some out
    /\ Forall (fun x => x = c) out
    /\ StringWidth out <= w
    /\ (0 < RuneWidth c -> w - RuneWidth c < StringWidth out)
    /\ (RuneWidth c = 0 -> len out = w).
Proof.
  intro Hw. unfold RepeatChar. replace (w <=? 0) with false by lia.
  pose proof (RuneWidth_range c) as Hr.
  set (cw := if RuneWidth c =? 0 then 1 else RuneWidth c).
  assert (Hcw : 1 <= cw <= 2 /\ (0 < RuneWidth c -> cw = RuneWidth c)
                /\ (RuneWidth c = 0 -> cw = 1)).
  { unfold cw. destruct (RuneWidth c =? 0) eqn:E; lia. }
  destruct Hcw as (Hcw & Hpos & Hzero).
  assert (Hq : 0 <= w ÷ cw /\ cw * (w ÷ cw) <= w < cw * (w ÷ cw) + cw).
  { rewrite Z.quot_div_nonneg by lia.
    pose proof (Z.div_mod w cw). pose proof (Z.mod_pos_bound w cw). nia. }
  rewrite Repeat_nonneg by lia. rewrite concat_repeat_singleton.
  eexists. split; [reflexivity|].
  rewrite StringWidth_repeat, Z2Nat.id by lia.
  split; [apply Forall_forall; intros x Hx; now apply repeat_spec in Hx|].
  split; [|split].
  - destruct (Z.eq_dec (RuneWidth c) 0) as [E | E]; [rewrite E; lia|].
    rewrite <- Hpos by lia. lia.
  - intro H. pose proof (Hpos H) as E. rewrite <- E. lia.
  - intro H. unfold len. rewrite repeat_length, Z2Nat.id by lia.
    rewrite (Hzero H). apply Z.quot_1_r.
Qed.

(** Whatever the text, [PadText] with a width of at least one returns a
    string within the width, made of runes of the text, blanks and the
    ellipsis. *)
Lemma PadText_bounded (r : Renderer) (s : gostring) (w : Z) (align : Alignment) :
  1 <= w ->
  exists out,
    PadText r s w align = Some out
    /\ StringWidth out <= w
    /\ (StringWidth s <= w -> StringWidth out = w)
    /\ (w < StringWidth s -> out = Truncate s w ellipsis)
    /\ (~ In lineFeed s -> ~ In lineFeed out).
Proof.
  intro Hw. destruct (Z_le_gt_dec (StringWidth s) w) as [Hfit | Hwide].
  - destruct (PadText_width r s w align Hfit) as (out & Hout & Hwidth).
    exists out. split; [exact Hout|]. split; [lia|]. split; [auto|].
    split; [lia|]. intros Hnl Hin.
    rewrite PadText_shape in Hout by exact Hfit.
    assert (Hb : forall n, ~ In lineFeed (blanks n))
      by (intros n H; apply repeat_spec in H; discriminate H).
    destruct (0 <? w - StringWidth s);
      [destruct (align =? AlignLeft); [|destruct (align =? AlignRight);
         [|destruct (align =? AlignCenter)]]|];
      injection Hout as <-;
      repeat (apply in_app_or in Hin as [Hin | Hin]);
      try (now apply Hnl); now apply Hb in Hin.
  - exists (Truncate s w ellipsis). unfold PadText.
    replace (w <=? 0) with false by lia.
    replace (StringWidth s >=? w) with true by lia.
    split; [reflexivity|].
    split; [apply Truncate_width; rewrite StringWidth_ellipsis; exact Hw|].
    split; [lia|]. split; [reflexivity|].
    intros Hnl Hin. unfold Truncate in Hin.
    replace (StringWidth s <=? w) with false in Hin by lia.
    destruct (truncateLoop_split s 0 (w - StringWidth ellipsis)) as [rest Hrest].
    apply in_app_or in Hin as [Hin | Hin].
    + apply Hnl. rewrite Hrest. apply in_or_app. now left.
    + destruct Hin as [Hin | []]. discriminate Hin.
Qed.

(** X4. Asked to pad a text that is wider than the width (at least one
    column), [PadText] truncates instead: the result is the ellipsis
    truncation of the text and stays within the width, whatever the
    alignment; [CenterText] is [PadText] with centring. *)
Theorem PadText_truncates_before_padding (r : Renderer) (s : gostring)
    (w : Z) (align : Alignment) :
  1 <= w -> w < StringWidth s ->
  PadText r s w align = Some (Truncate s w ellipsis)
  /\ StringWidth (Truncate s w ellipsis) <= w
  /\ CenterText r s w = Some (Truncate s w ellipsis).
Proof.
  intros Hw Hwide.
  destruct (PadText_bounded r s w align Hw) as (out & Hout & Hb & _ & Ht & _).
  destruct (PadText_bounded r s w AlignCenter Hw) as (out' & Hout' & _ & _ & Ht' & _).
  rewrite <- (Ht Hwide). split; [exact Hout|]. split; [exact Hb|].
  unfold CenterText. rewrite Hout', (Ht Hwide), (Ht' Hwide). reflexivity.
Qed.

End RepeatPadFacts.

Lemma RepeatChar_fills_witness :
  exists out, core.RepeatChar r0 45 7 = Some out
              /\ runewidth.StringWidth out <= 7.
Proof.
  destruct (RepeatChar_fills r0 45 7) as (out & Hout & _ & Hw & _); [lia|].
  exists out. split; [exact Hout|exact Hw].
Defined.

Lemma PadText_truncates_before_padding_witness :
  core.PadText r0 (gostr "abcdefgh") 4 core.AlignRight
  = Some (runewidth.Truncate (gostr "abcdefgh") 4 ellipsis).
Proof.
  apply (PadText_truncates_before_padding r0 (gostr "abcdefgh") 4 core.AlignRight);
    vm_compute; [discriminate|reflexivity].
Defined.

(** ** Frames and tables of the renderer *)
Section RendererFrames.
Context {cond : runewidth.Condition}.
Import runewidth core.

Lemma mapM_PadText (r : Renderer) (w : Z) (align : Alignment)
    (strs : list gostring) :
  1 <= w -> Forall (fun s => ~ In lineFeed s) strs ->
  exists res,
    mapM (fun str => PadText r str w align) strs = Some res
    /\ length res = length strs
    /\ Forall (fun l => ~ In lineFeed l /\ StringWidth l <= w) res
    /\ (Forall (fun s => StringWidth s <= w) strs ->
        Forall (fun l => StringWidth l = w) res).
Proof.
  intros Hw. induction 1 as [|s strs Hs _ IH].
  - exists []. repeat split; constructor.
  - destruct IH as (res & Hres & Hlen & Hb & Hfit).
    destruct (PadText_bounded r s w align Hw) as (out & Hout & Ho1 & Ho2 & _ & Ho3).
    exists (out :: res). cbn [mapM]. rewrite Hout. cbn [bind]. rewrite Hres.
    cbn [bind]. split; [reflexivity|]. split; [simpl; now rewrite Hlen|].
    split; [constructor; auto|].
    intro Hall. inversion Hall; subst. constructor; auto.
Qed.

Lemma mapM_id (strs : list gostring) :
  mapM (fun str => Some str) strs = Some strs.
Proof.
  induction strs as [|s strs IH]; [reflexivity|].
  cbn [mapM bind]. now rewrite IH.
Qed.

(** X5. [JoinVertical] gives one line per string; with a width of at
    least one every line stays within the width, and is exactly that wide
    when the strings fit; with a width of zero or less the strings are
    joined as they are. *)
Theorem JoinVertical_lines (r : Renderer) (strs : list gostring) (w : Z)
    (align : Alignment) :
  (w <= 0 -> JoinVertical r strs w align = Some (strings.Join strs [lineFeed]))
  /\ (1 <= w -> strs <> [] -> Forall (fun s => ~ In lineFeed s) strs ->
      exists out,
        JoinVertical r strs w align = Some out
        /\ length (strings.Split out lineFeed) = length strs
        /\ Forall (fun l => StringWidth l <= w) (strings.Split out lineFeed)
        /\ (Forall (fun s => StringWidth s <= w) strs ->
            Forall (fun l => StringWidth l = w) (strings.Split out lineFeed))).
Proof.
  unfold JoinVertical. split.
  - intro Hw. unfold PadText. replace (w <=? 0) with true by lia.
    now rewrite mapM_id.
  - intros Hw Hne Hnl.
    destruct (mapM_PadText r w align strs Hw Hnl) as (res & -> & Hlen & Hb & Hfit).
    cbn [bind]. eexists. split; [reflexivity|].
    rewrite Split_Join.
    + split; [exact Hlen|]. split; [|exact Hfit].
      eapply Forall_impl; [|exact Hb]. now intros l [_ H].
    + destruct res; [destruct strs; [congruence|discriminate]|discriminate].
    + eapply Forall_impl; [|exact Hb]. now intros l [H _].
Qed.

Lemma frame_edge_width (a b c : rune) (n : Z) :
  0 <= n -> unitRune a -> unitRune b -> unitRune c ->
  exists h, strings.Repeat [b] n = Some h
            /\ StringWidth ([a] ++ h ++ [c]) = n + 2
            /\ ~ In lineFeed ([a] ++ h ++ [c]).
Proof.
  intros Hn [Ha Ha'] [Hb Hb'] [Hc Hc'].
  rewrite Repeat_nonneg by exact Hn. rewrite concat_repeat_singleton.
  eexists. split; [reflexivity|]. split.
  - rewrite !StringWidth_app, StringWidth_repeat, Z2Nat.id by exact Hn.
    cbn [StringWidth]. lia.
  - intro Hin. apply in_app_or in Hin as [[Hin | []] | Hin]; [congruence|].
    apply in_app_or in Hin as [Hin | [Hin | []]]; [|congruence].
    apply repeat_spec in Hin. congruence.
Qed.

(** X6. [Renderer.Box]: below three columns or three lines the content
    comes back as it is; otherwise, with a frame of one-column runes, the
    result has exactly [height] lines, none wider than [width], and all
    exactly [width] wide when the content lines fit the inner width. *)
Theorem DrawBox_frame (r : Renderer) (content : gostring) (w h : Z)
    (chars : BoxChars) :
  (w < 3 \/ h < 3 -> DrawBox r content w h chars = Some content)
  /\ (3 <= w -> 3 <= h -> unitChars chars ->
      exists out,
        DrawBox r content w h chars = Some out
        /\ len (strings.Split out lineFeed) = h
        /\ Forall (fun l => StringWidth l <= w) (strings.Split out lineFeed)
        /\ (Forall (fun l => StringWidth l <= w - 2)
                   (strings.Split content lineFeed) ->
            Forall (fun l => StringWidth l = w)
                   (strings.Split out lineFeed))).
Proof.
  unfold DrawBox. split.
  - intros [H | H].
    + now replace (w <? 3) with true by lia.
    + replace (h <? 3) with true by lia. now rewrite orb_true_r.
  - intros Hw Hh (HTL & HTR & HBL & HBR & HH & HV).
    replace (w <? 3) with false by lia. replace (h <? 3) with false by lia.
    cbn [orb].
    set (lines := strings.Split content lineFeed).
    set (fits := Forall (fun l => StringWidth l <= w - 2) lines).
    destruct (forRange_Forall (h - 2)
                (fun i => if i <? len lines
                          then PadText r (nth (Z.to_nat i) lines []) (w - 2) AlignLeft
                          else strings.Repeat space (w - 2))
                (fun l => ~ In lineFeed l /\ StringWidth l <= w - 2
                          /\ (fits -> StringWidth l = w - 2)))
      as (body & -> & Hbody & Hlen).
    { intros i Hi. destruct (i <? len lines) eqn:E.
      - assert (Hin : In (nth (Z.to_nat i) lines []) lines)
          by (apply nth_In; unfold len in E; lia).
        pose proof (Split_pieces content lineFeed) as Hp.
        rewrite Forall_forall in Hp. destruct (Hp _ Hin) as [Hnl _].
        destruct (PadText_bounded r (nth (Z.to_nat i) lines []) (w - 2) AlignLeft)
          as (out & Hout & H1 & H2 & _ & H3); [lia|].
        exists out. split; [exact Hout|]. split; [auto|]. split; [exact H1|].
        intro Hf. apply H2. unfold fits in Hf. rewrite Forall_forall in Hf. auto.
      - rewrite Repeat_space by lia. eexists. split; [reflexivity|].
        rewrite StringWidth_blanks by lia. split; [|lia].
        intro H. apply repeat_spec in H. discriminate H. }
    cbn [bind].
    destruct (frame_edge_width (TopLeft chars) (Horizontal chars) (TopRight chars)
                (w - 2)) as (top & Htop & Htw & Htn); try assumption; [lia|].
    destruct (frame_edge_width (BottomLeft chars) (Horizontal chars)
                (BottomRight chars) (w - 2)) as (bot & Hbot & Hbw & Hbn);
      try assumption; [lia|].
    assert (bot = top) by congruence. subst bot. clear Hbot.
    rewrite Htop. cbn [bind].
    eexists. split; [reflexivity|].
    set (rows := map (fun line => [Vertical chars] ++ line ++ [Vertical chars]) body).
    assert (Hrows : Forall (fun l => ~ In lineFeed l /\ StringWidth l <= w
                                     /\ (fits -> StringWidth l = w)) rows).
    { unfold rows. apply Forall_forall. intros l Hl.
      apply in_map_iff in Hl as (line & <- & Hline).
      rewrite Forall_forall in Hbody. destruct (Hbody _ Hline) as (H1 & H2 & H3).
      destruct HV as [HV HV']. rewrite !StringWidth_app. cbn [StringWidth].
      split; [|split; [lia|intro Hf; specialize (H3 Hf); lia]].
      intro Hin. apply in_app_or in Hin as [[Hin | []] | Hin]; [congruence|].
      apply in_app_or in Hin as [Hin | [Hin | []]]; [tauto|congruence]. }
    assert (Hall :
      Forall (fun l => ~ In lineFeed l /\ StringWidth l <= w
                       /\ (fits -> StringWidth l = w))
             ([[TopLeft chars] ++ top ++ [TopRight chars]] ++ rows
              ++ [[BottomLeft chars] ++ top ++ [BottomRight chars]])).
    { apply Forall_app. split; [|apply Forall_app; split].
      - constructor; [|constructor]. split; [exact Htn|]. split; lia.
      - exact Hrows.
      - constructor; [|constructor]. split; [exact Hbn|]. split; lia. }
    rewrite Split_Join.
    + split; [|split].
      * unfold len, rows. rewrite !length_app, length_map. cbn [length].
        unfold len in Hlen. unfold gostring in *. lia.
      * eapply Forall_impl; [|exact Hall]. now intros l (_ & H & _).
      * intro Hf. eapply Forall_impl; [|exact Hall].
        intros l (_ & _ & H). now apply H.
    + discriminate.
    + eapply Forall_impl; [|exact Hall]. now intros l (H & _).
Qed.

Lemma PadText_fits (r : Renderer) (cell : gostring) (w : Z) (align : Alignment) :
  cellFits cell w ->
  exists out, PadText r cell w align = Some out
              /\ StringWidth out = w /\ ~ In lineFeed out.
Proof.
  intros [Hnl Hfit]. destruct (Z_le_gt_dec w 0) as [Hle | Hgt].
  - exists cell. unfold PadText. replace (w <=? 0) with true by lia.
    pose proof (StringWidth_nonneg cell). repeat split; [lia|exact Hnl].
  - destruct (PadText_bounded r cell w align) as (out & Hout & _ & H & _ & Hn);
      [lia|].
    exists out. auto.
Qed.

Lemma formatTableRow_cells (r : Renderer) (ws : list Z) (cells : list gostring)
    (suf : list Z) :
  Forall2 cellFits cells suf ->
  forall pre, ws = pre ++ suf ->
  exists parts,
    forEach (formatTableCell r ws) (length pre) cells = Some parts
    /\ StringWidth (List.concat parts)
       = fold_right (fun w acc => w + 3 + acc) 0 suf
    /\ ~ In lineFeed (List.concat parts).
Proof.
  induction 1 as [|cell w cells suf Hcell _ IH]; intros pre Hws.
  - exists []. repeat split. intros [].
  - destruct (IH (pre ++ [w])) as (parts & Hparts & Hsum & Hnl);
      [now rewrite <- app_assoc|].
    destruct (PadText_fits r cell w AlignLeft Hcell) as (out & Hout & How & Hon).
    exists ((space ++ out ++ space ++ [9474]) :: parts).
    cbn [forEach]. unfold formatTableCell at 1.
    replace (Z.of_nat (length pre) <? len ws) with true
      by (symmetry; apply Z.ltb_lt; subst ws; unfold len;
          rewrite length_app; cbn [length]; lia).
    replace (nth (length pre) ws 0) with w by (subst ws; now rewrite nth_middle).
    rewrite Hout. cbn [bind].
    replace (S (length pre)) with (length (pre ++ [w]))
      by (rewrite length_app; cbn [length]; lia).
    rewrite Hparts. cbn [bind]. split; [reflexivity|].
    cbn [List.concat fold_right]. split.
    + rewrite !StringWidth_app, Hsum, How, StringWidth_space.
      cbn [StringWidth]. rewrite RuneWidth_box by lia. lia.
    + intro Hin. apply in_app_or in Hin as [Hin | Hin]; [|tauto].
      apply in_app_or in Hin as [[Hin | []] | Hin]; [discriminate Hin|].
      apply in_app_or in Hin as [Hin | Hin]; [tauto|].
      destruct Hin as [Hin | [Hin | []]]; discriminate Hin.
Qed.

Lemma formatTableRow_width (r : Renderer) (ws : list Z) (cells : list gostring) :
  Forall2 cellFits cells ws ->
  exists row, formatTableRow r cells ws = Some row
              /\ StringWidth row = tableWidth ws /\ ~ In lineFeed row.
Proof.
  intro H.
  destruct (formatTableRow_cells r ws cells ws H [] eq_refl)
    as (parts & Hparts & Hsum & Hnl).
  unfold formatTableRow. cbn [length] in Hparts. rewrite Hparts. cbn [bind].
  eexists. split; [reflexivity|]. split.
  - rewrite StringWidth_app, Hsum. cbn [StringWidth].
    rewrite RuneWidth_box by lia. unfold tableWidth. lia.
  - intros [Hin | Hin]; [discriminate Hin|tauto].
Qed.

Lemma formatTableSegments_later (ws : list Z) :
  Forall (fun w => 0 <= w) ws ->
  forall k,
  exists parts,
    forEach formatTableSegment (S k) ws = Some parts
    /\ StringWidth (List.concat parts)
       = fold_right (fun w acc => w + 3 + acc) 0 ws
    /\ ~ In lineFeed (List.concat parts).
Proof.
  induction 1 as [|w ws Hw _ IH]; intro k.
  - exists []. repeat split. intros [].
  - destruct (IH (S k)) as (parts & Hparts & Hsum & Hnl).
    cbn [forEach]. unfold formatTableSegment at 1.
    rewrite Repeat_nonneg by lia. rewrite concat_repeat_singleton.
    cbn [bind Nat.ltb Nat.leb]. rewrite Hparts. cbn [bind].
    eexists. split; [reflexivity|]. cbn [List.concat fold_right]. split.
    + rewrite !StringWidth_app, Hsum, StringWidth_repeat.
      cbn [StringWidth]. rewrite !RuneWidth_box by lia. lia.
    + intro Hin. apply in_app_or in Hin as [Hin | Hin]; [|tauto].
      apply in_app_or in Hin as [[Hin | []] | Hin]; [discriminate Hin|].
      apply repeat_spec in Hin. discriminate Hin.
Qed.

Lemma formatTableSeparator_width (r : Renderer) (ws : list Z) :
  ws <> [] -> Forall (fun w => 0 <= w) ws ->
  exists row, formatTableSeparator r ws = Some row
              /\ StringWidth row = tableWidth ws /\ ~ In lineFeed row.
Proof.
  intros Hne Hws. destruct Hws as [|w ws Hw Hws]; [congruence|].
  destruct (formatTableSegments_later ws Hws 0) as (parts & Hparts & Hsum & Hnl).
  unfold formatTableSeparator. cbn [forEach]. unfold formatTableSegment at 1.
  rewrite Repeat_nonneg by lia. rewrite concat_repeat_singleton.
  cbn [bind Nat.ltb Nat.leb]. rewrite Hparts. cbn [bind].
  eexists. split; [reflexivity|]. cbn [List.concat]. split.
  - rewrite !StringWidth_app, Hsum, StringWidth_repeat.
    cbn [StringWidth app]. rewrite !RuneWidth_box by lia.
    unfold tableWidth. cbn [fold_right]. lia.
  - intro Hin. apply in_app_or in Hin as [[Hin | []] | Hin]; [discriminate Hin|].
    apply in_app_or in Hin as [Hin | [Hin | []]]; [|discriminate Hin].
    apply in_app_or in Hin as [Hin | Hin]; [|tauto].
    cbn [app] in Hin. apply repeat_spec in Hin. discriminate Hin.
Qed.

Lemma cellFits_widths (cells : list gostring) (ws : list Z) :
  Forall2 cellFits cells ws -> Forall (fun w => 0 <= w) ws.
Proof.
  induction 1 as [|cell w cells ws [_ H] _ IH]; constructor; [|exact IH].
  pose proof (StringWidth_nonneg cell). lia.
Qed.

(** X7. [FormatTable]: without headers the result is empty; when the
    header row and every data row have one fitting single-line cell per
    column, the result is the header, the separator and one line per row,
    and every line is exactly [tableWidth] columns wide. *)
Theorem FormatTable_rectangle (r : Renderer) (headers : list gostring)
    (rows : list (list gostring)) (ws : list Z) :
  FormatTable r [] rows ws = Some []
  /\ (headers <> [] ->
      Forall (fun row => Forall2 cellFits row ws) (headers :: rows) ->
      exists out,
        FormatTable r headers rows ws = Some out
        /\ length (strings.Split out lineFeed) = (2 + length rows)%nat
        /\ Forall (fun l => StringWidth l = tableWidth ws)
                  (strings.Split out lineFeed)).
Proof.
  split; [reflexivity|]. intros Hne Hall.
  inversion Hall as [|? ? Hh Hrows]; subst.
  assert (Hws : ws <> []) by (intros ->; inversion Hh; subst; congruence).
  destruct (formatTableRow_width r ws headers Hh) as (hrow & Hhrow & Hhw & Hhn).
  destruct (formatTableSeparator_width r ws Hws (cellFits_widths _ _ Hh))
    as (sep & Hsep & Hsw & Hsn).
  assert (Hbody : exists body,
    mapM (fun row => formatTableRow r row ws) rows = Some body
    /\ length body = length rows
    /\ Forall (fun l => StringWidth l = tableWidth ws /\ ~ In lineFeed l) body).
  { clear Hall. induction Hrows as [|row rows Hrow _ IH].
    - exists []. repeat split. constructor.
    - destruct IH as (body & Hb & Hl & Hf).
      destruct (formatTableRow_width r ws row Hrow) as (x & Hx & Hxw & Hxn).
      exists (x :: body). cbn [mapM]. rewrite Hx. cbn [bind]. rewrite Hb.
      cbn [bind]. split; [reflexivity|]. split; [simpl; now rewrite Hl|].
      constructor; auto. }
  destruct Hbody as (body & Hb & Hl & Hf).
  unfold FormatTable.
  replace (len headers =? 0) with false
    by (symmetry; apply Z.eqb_neq; destruct headers;
        [congruence|unfold len; cbn [length]; lia]).
  rewrite Hhrow. cbn [bind]. rewrite Hsep. cbn [bind]. rewrite Hb. cbn [bind].
  eexists. split; [reflexivity|].
  assert (Hlines : Forall (fun l => StringWidth l = tableWidth ws
                                    /\ ~ In lineFeed l)
                          ([hrow; sep] ++ body))
    by (cbn [app]; repeat constructor; auto).
  rewrite Split_Join.
  - split; [cbn [app length]; now rewrite Hl|].
    eapply Forall_impl; [|exact Hlines]. now intros l [H _].
  - discriminate.
  - eapply Forall_impl; [|exact Hlines]. now intros l [_ H].
Qed.

End RendererFrames.

Lemma JoinVertical_lines_witness :
  exists out,
    core.JoinVertical r0 [gostr "ab"; gostr "c"] 3 core.AlignRight = Some out
    /\ length (strings.Split out lineFeed) = 2%nat.
Proof.
  destruct (proj2 (JoinVertical_lines r0 [gostr "ab"; gostr "c"] 3 core.AlignRight))
    as (out & Hout & Hlen & _).
  - lia.
  - discriminate.
  - repeat (apply Forall_cons; [vm_compute; intuition discriminate|]).
    apply Forall_nil.
  - exists out. split; [exact Hout|exact Hlen].
Defined.

Lemma DrawBox_frame_witness :
  exists out,
    core.DrawBox r0 (gostr "hi") 6 3 core.ClassicBoxChars = Some out
    /\ len (strings.Split out lineFeed) = 3.
Proof.
  destruct (proj2 (DrawBox_frame r0 (gostr "hi") 6 3 core.ClassicBoxChars))
    as (out & Hout & Hlen & _).
  - lia.
  - lia.
  - unfold unitChars, unitRune. cbn.
    repeat split; try discriminate; reflexivity.
  - exists out. split; [exact Hout|exact Hlen].
Defined.

Lemma FormatTable_rectangle_witness :
  exists out,
    core.FormatTable r0 [gostr "id"; gostr "name"] [[gostr "1"; gostr "ann"]]
                     [2; 5] = Some out
    /\ length (strings.Split out lineFeed) = 3%nat.
Proof.
  destruct (proj2 (FormatTable_rectangle r0 [gostr "id"; gostr "name"]
                     [[gostr "1"; gostr "ann"]] [2; 5]))
    as (out & Hout & Hlen & _).
  - discriminate.
  - repeat (apply Forall_cons || apply Forall_nil
            || apply Forall2_cons || apply Forall2_nil);
      (split; [vm_compute; intuition discriminate|vm_compute; discriminate]).
  - exists out. split; [exact Hout|exact Hlen].
Defined.

(** ** Word wrapping: what the loop keeps *)
Section WrapFacts.
Context {cond : runewidth.Condition}.
Import runewidth core Box.

Lemma wrapWord_progress (w : Z) (lines : list gostring) (cur word : gostring) :
  word <> [] ->
  fst (wrapWord w (lines, cur) word) <> []
  \/ snd (wrapWord w (lines, cur) word) <> [].
Proof.
  intro Hword. unfold wrapWord.
  destruct (StringWidth _ <=? w); cbn [fst snd].
  - right. intro H. apply app_eq_nil in H as [_ H]. contradiction.
  - left. destruct (nonempty cur); cbn [fst];
      intro H; apply app_eq_nil in H as [_ H]; discriminate H.
Qed.

Lemma wrapWord_keeps_lines (w : Z) (lines : list gostring) (cur word : gostring) :
  lines <> [] -> fst (wrapWord w (lines, cur) word) <> [].
Proof.
  intro Hl. unfold wrapWord.
  destruct (StringWidth _ <=? w); [exact Hl|].
  destruct (nonempty cur); cbn [fst];
    intro H; apply app_eq_nil in H as [H _]; contradiction.
Qed.

Lemma wrapWords_progress (w : Z) (words : list gostring) :
  Forall (fun word => word <> []) words ->
  forall lines cur,
    lines <> [] \/ cur <> [] \/ words <> [] ->
    fst (fold_left (wrapWord w) words (lines, cur)) <> []
    \/ snd (fold_left (wrapWord w) words (lines, cur)) <> [].
Proof.
  induction 1 as [|word words Hword _ IH]; intros lines cur H.
  - cbn [fold_left fst snd]. destruct H as [H | [H | H]]; auto; congruence.
  - cbn [fold_left].
    rewrite (surjective_pairing (wrapWord w (lines, cur) word)).
    apply IH. destruct (wrapWord_progress w lines cur word Hword); auto.
Qed.

Lemma WrapText_nonempty (r : Renderer) (text : gostring) (w : Z) :
  WrapText r text w <> [].
Proof.
  unfold WrapText. destruct (w <=? 0); [discriminate|].
  destruct (strings.Fields text) as [|word words] eqn:E; [discriminate|].
  cbn [length Nat.eqb].
  pose proof (Fields_nonempty text) as Hne. rewrite E in Hne.
  assert (Hp : fst (fold_left (wrapWord w) (word :: words) (emptyLines, emptyLine))
               <> []
               \/ snd (fold_left (wrapWord w) (word :: words)
                                  (emptyLines, emptyLine)) <> [])
    by (apply wrapWords_progress; [exact Hne|right; right; discriminate]).
  destruct (fold_left (wrapWord w) (word :: words) (emptyLines, emptyLine))
    as [lines cur].
  cbn [fst snd] in Hp.
  destruct cur as [|c cur]; cbn [nonempty].
  - destruct Hp as [Hp | Hp]; [exact Hp|congruence].
  - intro H. apply app_eq_nil in H as [_ H]. discriminate H.
Qed.

Lemma wrapLine_WrapText (r : Renderer) (line : gostring) (w : Z) :
  0 < w -> wrapLine w line = WrapText r line w.
Proof.
  intro Hw. unfold wrapLine, WrapText. replace (w <=? 0) with false by lia.
  destruct line; reflexivity.
Qed.

Lemma Split_nonempty (s : gostring) (sep : rune) : strings.Split s sep <> [].
Proof.
  destruct s as [|c s]; cbn [strings.Split]; [discriminate|].
  destruct (c =? sep); [discriminate|].
  destruct (strings.Split s sep); discriminate.
Qed.

(** X8. [Box.wrapContent] is [Renderer.WrapText] applied to each line of the
    content in turn, for a positive width, and returns the content as it
    is otherwise; neither function ever returns an empty slice. *)
Theorem wrapContent_is_WrapText_per_line (r : Renderer) (b : Box.Box) (w : Z) :
  wrapContent b w
  = (if 0 <? w
     then flat_map (fun line => WrapText r line w)
                   (strings.Split (content b) lineFeed)
     else WrapText r (content b) w)
  /\ WrapText r (content b) w <> []
  /\ wrapContent b w <> [].
Proof.
  assert (Heq : wrapContent b w
          = (if 0 <? w
             then flat_map (fun line => WrapText r line w)
                           (strings.Split (content b) lineFeed)
             else WrapText r (content b) w)).
  { unfold wrapContent. destruct (Z.ltb_spec 0 w) as [Hw | Hw].
    - replace (w <=? 0) with false by lia.
      rewrite fold_left_app_flat_map. cbn [app].
      apply flat_map_ext. intro line. now apply wrapLine_WrapText.
    - unfold WrapText. now replace (w <=? 0) with true by lia. }
  split; [exact Heq|]. split; [apply WrapText_nonempty|].
  rewrite Heq. destruct (0 <? w); [|apply WrapText_nonempty].
  pose proof (Split_nonempty (content b) lineFeed) as Hs.
  destruct (strings.Split (content b) lineFeed) as [|line lines]; [congruence|].
  cbn [flat_map]. intro H. apply app_eq_nil in H as [H _].
  now apply (WrapText_nonempty r line w).
Qed.

Lemma wrapWord_fit_or_word (w : Z) (all : list gostring)
    (lines : list gostring) (cur word : gostring) :
  1 <= w -> In word all ->
  Forall (fun l => StringWidth l <= w \/ In l all) lines ->
  (StringWidth cur <= w \/ In cur all) ->
  Forall (fun l => StringWidth l <= w \/ In l all)
         (fst (wrapWord w (lines, cur) word))
  /\ (StringWidth (snd (wrapWord w (lines, cur) word)) <= w
      \/ In (snd (wrapWord w (lines, cur) word)) all).
Proof.
  intros Hw Hin Hlines Hcur. unfold wrapWord.
  destruct (StringWidth _ <=? w) eqn:E; cbn [fst snd].
  - split; [exact Hlines|]. left. lia.
  - destruct (nonempty cur); cbn [fst snd].
    + split; [|now right]. apply Forall_app. split; [exact Hlines|].
      constructor; [exact Hcur|constructor].
    + split; [|left; cbn; lia]. apply Forall_app. split; [exact Hlines|].
      constructor; [|constructor]. left. apply Truncate_width.
      rewrite StringWidth_ellipsis. exact Hw.
Qed.

Lemma wrapWords_fit_or_word (w : Z) (all words : list gostring) :
  1 <= w -> incl words all ->
  forall lines cur,
    Forall (fun l => StringWidth l <= w \/ In l all) lines ->
    (StringWidth cur <= w \/ In cur all) ->
    Forall (fun l => StringWidth l <= w \/ In l all)
           (fst (fold_left (wrapWord w) words (lines, cur)))
    /\ (StringWidth (snd (fold_left (wrapWord w) words (lines, cur))) <= w
        \/ In (snd (fold_left (wrapWord w) words (lines, cur))) all).
Proof.
  intro Hw. induction words as [|word words IH]; intros Hincl lines cur Hl Hc.
  - now split.
  - cbn [fold_left].
    destruct (wrapWord_fit_or_word w all lines cur word Hw) as [H1 H2]; auto.
    { apply Hincl. now left. }
    destruct (wrapWord w (lines, cur) word) as [lines' cur'].
    apply IH; auto. intros x Hx. apply Hincl. now right.
Qed.

(** X9. For a width of at least one, a line of [WrapText] that is wider
    than the width is one whole word of the text; so when every word fits,
    every line fits. *)
Theorem WrapText_overwide_lines_are_words (r : Renderer) (text : gostring) (w : Z) :
  1 <= w ->
  Forall (fun l => StringWidth l <= w \/ In l (strings.Fields text))
         (WrapText r text w)
  /\ (Forall (fun word => StringWidth word <= w) (strings.Fields text) ->
      Forall (fun l => StringWidth l <= w) (WrapText r text w)).
Proof.
  intro Hw.
  assert (H : Forall (fun l => StringWidth l <= w \/ In l (strings.Fields text))
                     (WrapText r text w)).
  { unfold WrapText. replace (w <=? 0) with false by lia.
    destruct (length (strings.Fields text) =? 0)%nat.
    - constructor; [left; cbn; lia|constructor].
    - destruct (wrapWords_fit_or_word w (strings.Fields text)
                  (strings.Fields text) Hw (incl_refl _) emptyLines emptyLine)
        as [H1 H2]; [constructor|left; cbn; lia|].
      destruct (fold_left (wrapWord w) (strings.Fields text)
                  (emptyLines, emptyLine)) as [lines cur].
      cbn [fst snd] in H1, H2. destruct (nonempty cur); [|exact H1].
      apply Forall_app. split; [exact H1|]. constructor; [exact H2|constructor]. }
  split; [exact H|]. intro Hfit.
  eapply Forall_impl; [|exact H]. intros l [Hl | Hl]; [exact Hl|].
  rewrite Forall_forall in Hfit. now apply Hfit.
Qed.

Lemma Fields_head (c : rune) (s : gostring) :
  strings.IsSpace c = false -> strings.Fields (c :: s) <> [].
Proof.
  intro Hc. cbn [strings.Fields]. rewrite Hc.
  destruct s as [|c' s]; [discriminate|].
  destruct (strings.IsSpace c'); [discriminate|].
  destruct (strings.Fields (c' :: s)); discriminate.
Qed.

Lemma Fields_app_space (a b : gostring) :
  strings.Fields (a ++ space ++ b) = strings.Fields a ++ strings.Fields b.
Proof.
  induction a as [|c a IH]; [reflexivity|].
  change ((c :: a) ++ space ++ b) with (c :: (a ++ space ++ b)).
  cbn [strings.Fields]. destruct (strings.IsSpace c) eqn:Ec; [exact IH|].
  destruct a as [|c' a].
  - reflexivity.
  - change ((c' :: a) ++ space ++ b) with (c' :: (a ++ space ++ b)) in *.
    destruct (strings.IsSpace c') eqn:Ec'; cbv beta match; rewrite ?Ec'.
    + now rewrite IH.
    + rewrite IH. pose proof (Fields_head c' a Ec') as Hne.
      destruct (strings.Fields (c' :: a)); [congruence|reflexivity].
Qed.

Lemma Fields_space_free (s : gostring) :
  Forall (fun word => forallb (fun c => negb (strings.IsSpace c)) word = true)
         (strings.Fields s).
Proof.
  induction s as [|c s IH]; cbn [strings.Fields]; [constructor|].
  destruct (strings.IsSpace c) eqn:Ec; [exact IH|].
  destruct s as [|c' s].
  - constructor; [cbn; now rewrite Ec|constructor].
  - destruct (strings.IsSpace c') eqn:Ec'.
    + constructor; [cbn; now rewrite Ec|exact IH].
    + destruct (strings.Fields (c' :: s)) as [|word words].
      * constructor; [cbn; now rewrite Ec|constructor].
      * inversion IH; subst. constructor; [|assumption].
        cbn [forallb]. rewrite Ec. cbn [negb andb]. assumption.
Qed.

Lemma Fields_word (word : gostring) :
  word <> [] ->
  forallb (fun c => negb (strings.IsSpace c)) word = true ->
  strings.Fields word = [word].
Proof.
  induction word as [|c word IH]; intros Hne Hfree; [congruence|].
  cbn [forallb] in Hfree. apply andb_prop in Hfree as [Hc Hfree].
  apply negb_true_iff in Hc. cbn [strings.Fields]. rewrite Hc.
  destruct word as [|c' word]; [reflexivity|].
  pose proof Hfree as Hfree'. cbn [forallb] in Hfree'.
  apply andb_prop in Hfree' as [Hc' _]. apply negb_true_iff in Hc'.
  rewrite Hc'. rewrite IH; [reflexivity|discriminate|exact Hfree].
Qed.

Lemma Fields_glue (cur word : gostring) :
  word <> [] ->
  forallb (fun c => negb (strings.IsSpace c)) word = true ->
  strings.Fields (glue cur word) = strings.Fields cur ++ [word].
Proof.
  intros Hne Hfree. unfold glue. destruct cur as [|c cur]; cbn [nonempty].
  - now apply Fields_word.
  - rewrite <- app_assoc, Fields_app_space. f_equal. now apply Fields_word.
Qed.

Lemma wrapWords_keep_words (w : Z) (words : list gostring) :
  Forall (fun word => word <> []
                      /\ forallb (fun c => negb (strings.IsSpace c)) word = true
                      /\ StringWidth word <= w) words ->
  forall lines cur,
    flat_map strings.Fields
             (fst (fold_left (wrapWord w) words (lines, cur)))
    ++ strings.Fields (snd (fold_left (wrapWord w) words (lines, cur)))
    = flat_map strings.Fields lines ++ strings.Fields cur ++ words.
Proof.
  induction 1 as [|word words (Hne & Hfree & Hfit) _ IH]; intros lines cur.
  - cbn [fold_left fst snd]. now rewrite app_nil_r.
  - cbn [fold_left].
    destruct (Z.le_gt_cases (StringWidth (glue cur word)) w) as [E | E].
    + rewrite wrapWord_fits by exact E.
      rewrite IH, Fields_glue by assumption. now rewrite <- app_assoc.
    + destruct cur as [|c cur].
      * unfold glue in E. cbn [nonempty app] in E. lia.
      * rewrite wrapWord_breaks by (discriminate || exact E).
        rewrite IH, flat_map_app. cbn [flat_map].
        rewrite (Fields_word word) by assumption.
        now rewrite app_nil_r, <- !app_assoc.
Qed.

(** X10. When every word of the text fits the width, [WrapText] loses no
    word and keeps their order: the words of its lines, read in turn, are
    the words of the text. *)
Theorem WrapText_keeps_words (r : Renderer) (text : gostring) (w : Z) :
  Forall (fun word => StringWidth word <= w) (strings.Fields text) ->
  flat_map strings.Fields (WrapText r text w) = strings.Fields text.
Proof.
  intro Hfit. unfold WrapText.
  destruct (w <=? 0); [cbn [flat_map]; apply app_nil_r|].
  destruct (strings.Fields text) as [|word0 words0] eqn:E; [reflexivity|].
  cbn [length Nat.eqb]. rewrite <- E in *.
  assert (Hall : Forall (fun word => word <> []
                      /\ forallb (fun c => negb (strings.IsSpace c)) word = true
                      /\ StringWidth word <= w) (strings.Fields text)).
  { pose proof (Fields_nonempty text) as H1.
    pose proof (Fields_space_free text) as H2.
    rewrite Forall_forall in *. intros x Hx. auto. }
  pose proof (wrapWords_keep_words w _ Hall emptyLines emptyLine) as Hk.
  destruct (fold_left (wrapWord w) (strings.Fields text) (emptyLines, emptyLine))
    as [lines cur].
  cbn [fst snd flat_map emptyLines emptyLine strings.Fields app] in Hk.
  destruct cur as [|c cur]; cbn [nonempty].
  - cbn [strings.Fields] in Hk. now rewrite app_nil_r in Hk.
  - rewrite flat_map_app. cbn [flat_map]. now rewrite app_nil_r.
Qed.

End WrapFacts.

Lemma WrapText_overwide_lines_are_words_witness :
  Forall (fun l => runewidth.StringWidth l <= 5
                   \/ In l (strings.Fields (gostr "hi abcdefghij")))
         (core.WrapText r0 (gostr "hi abcdefghij") 5).
Proof.
  apply (WrapText_overwide_lines_are_words r0 (gostr "hi abcdefghij") 5). lia.
Defined.

Lemma WrapText_keeps_words_witness :
  flat_map strings.Fields (core.WrapText r0 (gostr "one two  three") 7)
  = strings.Fields (gostr "one two  three").
Proof.
  apply (WrapText_keeps_words r0 (gostr "one two  three") 7).
  change (strings.Fields (gostr "one two  three"))
    with [gostr "one"; gostr "two"; gostr "three"].
  repeat (apply Forall_cons; [vm_compute; discriminate|]). apply Forall_nil.
Defined.

(** ** The box: automatic size and failure *)
Section BoxFacts.
Context {cond : runewidth.Condition}.
Import runewidth color style core Box.








Lemma Repeat_total (s : gostring) (n : Z) :
  0 <= n -> exists out, strings.Repeat s n = Some out.
Proof. intro H. rewrite Repeat_nonneg by exact H. now eexists. Qed.











End BoxFacts.


(** ** The box: number of lines *)
Section BoxLines.
Context {cond : runewidth.Condition}.
Import runewidth color style core Box.

















End BoxLines.


(** ** The table: headers, rows and column widths *)
Section TableFacts.
Context {cond : runewidth.Condition}.
Import runewidth color style core Table.

Lemma setAt_middle {A : Type} (pre : list A) (v w : A) (suf : list A) :
  setAt (length pre) v (pre ++ w :: suf) = pre ++ v :: suf.
Proof. induction pre as [|a pre IH]; [reflexivity|]. cbn. now rewrite IH. Qed.

Lemma headerLoop_sets (hs : list gostring) :
  forall pre ws, length ws = length hs ->
    headerLoop (length pre) hs (pre ++ ws) = pre ++ map StringWidth hs.
Proof.
  induction hs as [|h hs IH]; intros pre ws Hlen.
  - destruct ws; [reflexivity|discriminate].
  - destruct ws as [|w ws]; [discriminate|]. cbn [headerLoop map].
    replace (Z.of_nat (length pre) <? len (pre ++ w :: ws)) with true
      by (symmetry; apply Z.ltb_lt; unfold len; rewrite length_app;
          cbn [length]; lia).
    rewrite setAt_middle.
    replace (S (length pre)) with (length (pre ++ [StringWidth h]))
      by (rewrite length_app; cbn [length]; lia).
    replace (pre ++ StringWidth h :: ws) with ((pre ++ [StringWidth h]) ++ ws)
      by now rewrite <- app_assoc.
    rewrite IH by (cbn [length] in Hlen; lia).
    now rewrite <- app_assoc.
Qed.

Lemma nth_app_default {A : Type} (l : list A) (d : A) (k i : nat) :
  nth i (l ++ repeat d k) d = nth i l d.
Proof.
  destruct (Nat.lt_ge_cases i (length l)) as [Hlt | Hge].
  - now apply app_nth1.
  - rewrite app_nth2 by exact Hge. rewrite (nth_overflow l) by exact Hge.
    destruct (nth_in_or_default (i - length l) (repeat d k) d) as [H | H];
      [now apply repeat_spec in H|exact H].
Qed.

Lemma Headers_fields (t : Table) (hs : list gostring) :
  headers (Headers t hs) = hs
  /\ rows (Headers t hs) = rows t
  /\ columnWidths (Headers t hs)
     = (if len (columnWidths t) =? 0 then map StringWidth hs
        else columnWidths t)
  /\ alignment (Headers t hs)
     = alignment t ++ repeat AlignLeft (length hs - length (alignment t)).
Proof.
  unfold Headers. cbv zeta. cbn [columnWidths alignment].
  destruct (len (columnWidths t) =? 0);
    cbn [Alignments setWidths headers rows columnWidths alignment];
    repeat split.
  apply (headerLoop_sets hs [] (repeat 0 (length hs))), repeat_length.
Qed.

(** X15. [Headers] stores the headers; on a table without column widths
    it sets each width to the width of its header, and otherwise leaves
    the widths alone; it makes the alignment slice at least as long as the
    headers, and this changes the alignment of no column. *)
Theorem Headers_sets_widths_once (t : Table) (hs : list gostring) :
  headers (Headers t hs) = hs
  /\ rows (Headers t hs) = rows t
  /\ columnWidths (Headers t hs)
     = (if len (columnWidths t) =? 0 then map StringWidth hs
        else columnWidths t)
  /\ (length hs <= length (alignment (Headers t hs)))%nat
  /\ forall i, getAlignment (Headers t hs) i = getAlignment t i.
Proof.
  destruct (Headers_fields t hs) as (H1 & H2 & H3 & H4).
  split; [exact H1|]. split; [exact H2|]. split; [exact H3|]. split.
  - rewrite H4, length_app, repeat_length. lia.
  - intro i. unfold getAlignment. rewrite H4, nth_app_default.
    destruct (Z.ltb_spec (Z.of_nat i) (len (alignment t))) as [Hlt | Hge].
    + replace (Z.of_nat i <? len (alignment t ++ repeat AlignLeft
                 (length hs - length (alignment t)))) with true; [reflexivity|].
      symmetry. apply Z.ltb_lt. unfold len in *. rewrite length_app. lia.
    + rewrite (nth_overflow (alignment t)) by (unfold len in Hge; lia).
      destruct (_ <? _); reflexivity.
Qed.

Lemma fold_updateColumnWidthsForRow (rs : list (list gostring)) :
  forall t,
    fold_left updateColumnWidthsForRow rs t
    = setWidths t (fold_left (fun ws row => updateLoop 0 row ws) rs
                             (columnWidths t)).
Proof.
  induction rs as [|row rs IH]; intro t; cbn [fold_left].
  - now destruct t.
  - rewrite IH. now destruct t.
Qed.

Lemma fold_AddRow (rs : list (list gostring)) :
  forall t,
    fold_left AddRow rs t
    = setRows (setWidths t (fold_left (fun ws row => updateLoop 0 row ws) rs
                                      (columnWidths t)))
              (rows t ++ rs).
Proof.
  induction rs as [|row rs IH]; intro t; cbn [fold_left].
  - destruct t. unfold setRows, setWidths. cbn. now rewrite app_nil_r.
  - rewrite IH. destruct t. unfold AddRow, updateColumnWidthsForRow, setRows,
      setWidths. cbn. now rewrite <- app_assoc.
Qed.

(** X16. On a table that has no rows yet and whose column widths are the
    widths of its headers (the state [Headers] leaves a new table in),
    [Rows] gives the same table as adding the rows one by one with
    [AddRow]. *)
Theorem Rows_is_AddRow_each (t : Table) (rs : list (list gostring)) :
  rows t = [] ->
  columnWidths t = map StringWidth (headers t) ->
  Rows t rs = fold_left AddRow rs t.
Proof.
  intros Hrows Hws. rewrite fold_AddRow, Hrows, Hws. cbn [app].
  unfold Rows, calculateColumnWidths. cbv zeta.
  assert (Hreset :
    (if len (columnWidths (setRows t rs)) =? 0
     then setWidths (setRows t rs) (repeat 0 (length (headers (setRows t rs))))
     else setRows t rs) = setRows t rs).
  { cbn [setRows columnWidths headers]. rewrite Hws.
    destruct (headers t) as [|h hs] eqn:Eh; cbn [map].
    - unfold setWidths, setRows. cbn. now rewrite Hws, Eh.
    - reflexivity. }
  rewrite Hreset. rewrite fold_updateColumnWidthsForRow.
  cbn [setRows setWidths columnWidths headers rows].
  rewrite Hws.
  pose proof (headerLoop_sets (headers t) [] (map StringWidth (headers t))
                (length_map _ _)) as Hl.
  cbn [length app] in Hl. rewrite Hl. reflexivity.
Qed.

Lemma fold_updateLoop_covers (rs : list (list gostring)) :
  forall ws,
    let ws' := fold_left (fun ws row => updateLoop 0 row ws) rs ws in
    length ws' = length ws
    /\ forall j,
         nth j ws 0 <= nth j ws' 0
         /\ forall row, In row rs -> (j < length ws)%nat ->
                        (j < length row)%nat ->
                        StringWidth (nth j row []) <= nth j ws' 0.
Proof.
  induction rs as [|r rs IH]; intro ws; cbv zeta; cbn [fold_left].
  - split; [reflexivity|]. intro j. split; [lia|intros row []].
  - destruct (IH (updateLoop 0 r ws)) as (Hlen & Hcov). cbv zeta in Hlen, Hcov.
    rewrite updateLoop_length in Hlen. split; [exact Hlen|].
    intro j. destruct (Hcov j) as (Hmono & Hrows).
    assert (Hstep : nth j ws 0 <= nth j (updateLoop 0 r ws) 0
                    /\ ((j < length ws)%nat -> (j < length r)%nat ->
                        StringWidth (nth j r []) <= nth j (updateLoop 0 r ws) 0)).
    { rewrite updateLoop_nth, Nat.sub_0_r. cbn [Nat.leb andb Nat.add].
      destruct (Nat.ltb_spec j (length r)) as [Hr | Hr];
        destruct (Nat.ltb_spec j (length ws)) as [Hw | Hw]; cbn [andb];
        split; lia. }
    split; [lia|].
    intros row [<- | Hin] Hj Hjr.
    + destruct Hstep as [_ Hs]. specialize (Hs Hj Hjr). lia.
    + apply Hrows; [exact Hin| |exact Hjr]. now rewrite updateLoop_length.
Qed.

(** X17. Automatic column widths cover the table.  After [Headers] on a
    table without column widths and any sequence of [AddRow], there is
    one width per header, and every width is at least the width of its
    header and of every cell of its column. *)
Theorem auto_widths_cover_cells (t : Table) (hs : list gostring)
    (rs : list (list gostring)) :
  columnWidths t = [] ->
  let t' := fold_left AddRow rs (Headers t hs) in
  headers t' = hs
  /\ rows t' = rows t ++ rs
  /\ length (columnWidths t') = length hs
  /\ forall j, (j < length hs)%nat ->
       StringWidth (nth j hs []) <= nth j (columnWidths t') 0
       /\ forall row, In row rs -> (j < length row)%nat ->
                      StringWidth (nth j row []) <= nth j (columnWidths t') 0.
Proof.
  intros Hws t'. unfold t'. rewrite fold_AddRow.
  cbn [setRows setWidths headers rows columnWidths].
  destruct (Headers_fields t hs) as (Hhd & Hrw & Hh & _).
  rewrite Hws in Hh. change (len [] =? 0) with true in Hh. cbv iota in Hh.
  rewrite Hh, Hhd, Hrw.
  destruct (fold_updateLoop_covers rs (map StringWidth hs)) as (Hlen & Hcov).
  cbv zeta in Hlen, Hcov. rewrite length_map in Hlen, Hcov.
  split; [reflexivity|]. split; [reflexivity|]. split; [exact Hlen|].
  intros j Hj. destruct (Hcov j) as (Hmono & Hrows). split.
  - replace (StringWidth (nth j hs [])) with (nth j (map StringWidth hs) 0);
      [exact Hmono|].
    change 0 with (StringWidth []). apply map_nth.
  - intros row Hin Hjr. now apply Hrows.
Qed.


Lemma forEach_length {A B : Type} (f : nat -> A -> option B) (l : list A) :
  forall k bs, forEach f k l = Some bs -> length bs = length l.
Proof.
  induction l as [|a l IH]; intros k bs; cbn [forEach].
  - now intros [= <-].
  - destruct (f k a); [|discriminate]. cbn [bind].
    destruct (forEach f (S k) l) as [bs'|] eqn:E; [|discriminate].
    cbn [bind]. intros [= <-]. cbn [length]. f_equal. now apply (IH (S k)).
Qed.







Lemma forEach_lays_each (f : nat -> Z -> option gostring) (ws : list Z) :
  forall k,
    (forall i w, In w ws -> exists out, f i w = Some out /\ lays out w) ->
    exists parts,
      forEach f k ws = Some parts /\ Forall2 (fun p w => lays p w) parts ws.
Proof.
  induction ws as [|w ws IH]; intros k H.
  - exists []. split; [reflexivity|constructor].
  - destruct (H k w (or_introl eq_refl)) as (out & Hout & Hl).
    destruct (IH (S k)) as (parts & Hparts & Hall);
      [intros; apply H; now right|].
    exists (out :: parts). cbn [forEach]. rewrite Hout. cbn [bind].
    rewrite Hparts. cbn [bind]. split; [reflexivity|now constructor].
Qed.

Lemma Join_lays (parts : list gostring) (ws : list Z) :
  Forall2 (fun p w => lays p w) parts ws ->
  lays (strings.Join parts space)
       (fold_right Z.add 0 ws + Z.max 0 (len ws - 1)).
Proof.
  induction 1 as [|p w parts ws Hp Hrest IH].
  - apply lays_nil.
  - destruct Hrest as [|p2 w2 parts ws Hp2 Hrest].
    + cbn [strings.Join fold_right]. eapply lays_eq; [exact Hp|].
      unfold len. cbn. lia.
    + rewrite Join_cons2. eapply lays_eq.
      * apply lays_app; [exact Hp|]. apply lays_app; [|exact IH].
        eapply lays_eq; [apply (lays_plain space); reflexivity|].
        apply StringWidth_space.
      * unfold len. cbn [fold_right length]. lia.
Qed.

Lemma getTotalWidth_sum (t : Table) :
  getTotalWidth t
  = fold_right Z.add 0 (columnWidths t) + Z.max 0 (len (columnWidths t) - 1).
Proof.
  unfold getTotalWidth. cbv zeta.
  rewrite (fold_symmetric Z.add Z.add_assoc) by (intros; apply Z.add_comm).
  destruct (Z.gtb_spec (len (columnWidths t)) 1); lia.
Qed.

Lemma renderRowNoBorder_lays (t : Table) (cells : list gostring) (cc : Color) :
  Forall (fun w => 1 <= w) (columnWidths t) -> Forall plainCell cells ->
  exists row, renderRowNoBorder t cells cc = Some row
              /\ lays row (getTotalWidth t).
Proof.
  intros Hws Hcells. unfold renderRowNoBorder.
  match goal with
  | |- context [forEach ?f 0 ?l] =>
      destruct (forEach_lays_each f l 0) as (parts & -> & Hparts)
  end.
  - intros i w Hin. rewrite Forall_forall in Hws.
    destruct (paddedCell_lays t cells i w (Hws _ Hin) Hcells) as (out & -> & Hl).
    cbn [bind]. eexists. split; [reflexivity|now apply lays_Sprint].
  - cbn [bind]. eexists. split; [reflexivity|].
    rewrite getTotalWidth_sum. now apply Join_lays.
Qed.

(** X19. A table without border.  With column widths of at least one and
    plain texts, [Render] returns the header row, a rule of hyphens and
    one line per row, and every line measures the total width: the sum
    of the column widths plus one blank between neighbouring columns. *)
Theorem Render_borderless_table_lines (t : Table) (theme : Theme) :
  IsHidden (Component t) = false -> border t = false ->
  headers t <> [] ->
  Forall (fun w => 1 <= w) (columnWidths t) ->
  Forall plainCell (headers t) -> Forall (Forall plainCell) (rows t) ->
  exists out,
    Render t theme = Some out
    /\ length (strings.Split out lineFeed) = (2 + length (rows t))%nat
    /\ Forall (fun line => MeasureText line = getTotalWidth t)
              (strings.Split out lineFeed).
Proof.
  intros Hvis Hb Hh Hws Hhead Hrows. unfold Render. rewrite Hvis, Hb.
  replace (len (headers t) =? 0) with false
    by (symmetry; apply Z.eqb_neq; destruct (headers t);
        [congruence|unfold len; cbn [length]; lia]).
  cbn [orb]. cbv zeta.
  destruct (renderRowNoBorder_lays t (headers t)
              (Box.orTheme (headerStyle t) (style.Header theme)) Hws Hhead)
    as (header & -> & Hlheader).
  cbn [bind].
  assert (Htot : 0 <= getTotalWidth t).
  { rewrite getTotalWidth_sum.
    enough (0 <= fold_right Z.add 0 (columnWidths t)) by lia.
    induction Hws as [|w ws Hw _ IH]; cbn [fold_right]; lia. }
  destruct (lays_Repeat (gostr "-") 1 (getTotalWidth t))
    as (rule & -> & Hlrule); [|exact Htot|].
  { eapply lays_eq; [apply (lays_plain (gostr "-")); reflexivity|].
    cbn [gostr StringWidth]. cbn. rewrite RuneWidth_ascii by lia. lia. }
  cbn [bind]. rewrite Z.mul_1_r in Hlrule.
  destruct (forEach_Forall
              (fun i row =>
                 renderRowNoBorder t row
                   (rowColorAt (Box.orTheme (rowStyle t) (style.Primary theme))
                      (Box.orTheme (altRowStyle t) (style.Secondary theme)) i))
              (fun line => lays line (getTotalWidth t))
              (rows t) 0)
    as (body & Hbodyeq & Hbody).
  { intros i row Hin.
    rewrite Forall_forall in Hrows. now apply renderRowNoBorder_lays, Hrows. }
  rewrite Hbodyeq. cbn [bind]. eexists. split; [reflexivity|].
  assert (Hall : Forall (fun line => lays line (getTotalWidth t))
                   ([header; rule] ++ body))
    by (cbn [app]; repeat (apply Forall_cons; [assumption|]); exact Hbody).
  rewrite Split_Join.
  - split.
    + cbn [app length]. now rewrite (forEach_length _ _ _ _ Hbodyeq).
    + eapply Forall_impl; [|exact Hall]. intros row. apply lays_measure.
  - discriminate.
  - eapply Forall_impl; [|exact Hall]. now intros row (_ & _ & H).
Qed.

End TableFacts.


Lemma Render_borderless_table_lines_witness :
  exists out,
    Table.Render
      (Table.AddRow
         (Table.Border (Table.Headers Table.NewTable [gostr "id"; gostr "name"])
                       false)
         [gostr "1"; gostr "alice"])
      style.NewTheme = Some out
    /\ length (strings.Split out lineFeed) = 3%nat.
Proof.
  destruct (Render_borderless_table_lines
              (Table.AddRow
                 (Table.Border
                    (Table.Headers Table.NewTable [gostr "id"; gostr "name"])
                    false)
                 [gostr "1"; gostr "alice"])
              style.NewTheme) as (out & Hout & Hlen & _).
  - reflexivity.
  - reflexivity.
  - discriminate.
  - vm_compute. repeat constructor; discriminate.
  - repeat constructor.
  - repeat constructor.
  - exists out. split; [exact Hout|exact Hlen].
Defined.

Lemma Rows_is_AddRow_each_witness :
  Table.Rows (Table.Headers Table.NewTable [gostr "id"; gostr "name"])
             [[gostr "1"; gostr "alice"]; [gostr "22"]]
  = fold_left Table.AddRow [[gostr "1"; gostr "alice"]; [gostr "22"]]
              (Table.Headers Table.NewTable [gostr "id"; gostr "name"]).
Proof.
  apply (Rows_is_AddRow_each
           (Table.Headers Table.NewTable [gostr "id"; gostr "name"])
           [[gostr "1"; gostr "alice"]; [gostr "22"]]); reflexivity.
Defined.

Lemma auto_widths_cover_cells_witness :
  length (Table.columnWidths
            (fold_left Table.AddRow [[gostr "1"; gostr "alice"]]
               (Table.Headers Table.NewTable [gostr "id"; gostr "name"])))
  = 2%nat.
Proof.
  apply (auto_widths_cover_cells Table.NewTable [gostr "id"; gostr "name"]
           [[gostr "1"; gostr "alice"]]). reflexivity.
Defined.

(** ** The menu: selection and rendering *)
Section MenuFacts.
Context {cond : runewidth.Condition}.
Import runewidth color style core Menu.

Lemma stringEq_spec (a b : gostring) : stringEq a b = true <-> a = b.
Proof.
  revert b. induction a as [|x a IH]; intros [|y b]; cbn [stringEq];
    try (split; [discriminate|congruence]); [split; reflexivity|].
  rewrite andb_true_iff, Z.eqb_eq, IH. split.
  - now intros [-> ->].
  - now intros [= -> ->].
Qed.

Lemma firstMatch_spec (opts : list gostring) (text : gostring) :
  forall i,
    match firstMatch i opts text with
    | Some j => (i <= j)%nat /\ (j - i < length opts)%nat
                /\ nth (j - i) opts [] = text
                /\ forall k, (k < j - i)%nat -> nth k opts [] <> text
    | None => ~ In text opts
    end.
Proof.
  induction opts as [|opt opts IH]; intro i; cbn [firstMatch].
  - intros [].
  - destruct (stringEq opt text) eqn:E.
    + apply stringEq_spec in E. rewrite Nat.sub_diag. cbn [nth length].
      repeat split; [lia|lia|exact E|]. intros k Hk. lia.
    + assert (Hne : opt <> text)
        by (intro H; apply stringEq_spec in H; congruence).
      specialize (IH (S i)). destruct (firstMatch (S i) opts text) as [j|].
      * destruct IH as (H1 & H2 & H3 & H4).
        replace (j - i)%nat with (S (j - S i)) by lia. cbn [nth length].
        repeat split; [lia|lia|exact H3|].
        intros [|k] Hk; [exact Hne|]. apply H4. lia.
      * intros [H | H]; [now apply Hne|now apply IH].
Qed.

Lemma setSelected_same (m : Menu) : setSelected m (selected m) = m.
Proof. now destruct m. Qed.

Lemma options_len_pos (m : Menu) : options m <> [] -> 0 < len (options m).
Proof.
  intro H. destruct (options m); [congruence|unfold len; cbn [length]; lia].
Qed.

Lemma SelectNext_inRange (m : Menu) :
  0 <= selected m -> options m <> [] -> inRange (SelectNext m).
Proof.
  intros H0 Hne. pose proof (options_len_pos m Hne) as Hlen.
  unfold inRange, SelectNext.
  replace (len (options m) >? 0) with true by lia.
  cbn [setSelected selected options].
  apply Z.rem_bound_pos; lia.
Qed.

Lemma SelectPrev_inRange (m : Menu) :
  0 <= selected m -> options m <> [] -> inRange (SelectPrev m).
Proof.
  intros H0 Hne. pose proof (options_len_pos m Hne) as Hlen.
  unfold inRange, SelectPrev.
  replace (len (options m) >? 0) with true by lia.
  cbn [setSelected selected options].
  apply Z.rem_bound_pos; lia.
Qed.

Lemma SelectByIndex_inRange (m : Menu) (i : Z) :
  inRange m -> inRange (SelectByIndex m i).
Proof.
  unfold inRange, SelectByIndex. intro Hr.
  destruct (Z.geb_spec i 0); destruct (Z.ltb_spec i (len (options m)));
    cbn [andb setSelected selected options]; lia.
Qed.

Lemma SelectByOption_inRange (m : Menu) (text : gostring) :
  inRange m -> inRange (SelectByOption m text).
Proof.
  unfold inRange, SelectByOption. intro Hr.
  pose proof (firstMatch_spec (options m) text 0) as Hs.
  destruct (firstMatch 0 (options m) text) as [j|];
    cbn [setSelected selected options]; [|exact Hr].
  destruct Hs as (_ & Hj & _). unfold len. lia.
Qed.

(** X20. The selection stays on an option.  From a selection that is not
    negative, [SelectNext] and [SelectPrev] land on an option of a menu
    that has any; and a selection that is on an option stays on one under
    [Selected], [SelectByIndex] and [SelectByOption].  None of them
    changes the options. *)
Theorem selection_stays_in_range (m : Menu) :
  0 <= selected m ->
  (options m <> [] -> inRange (SelectNext m) /\ inRange (SelectPrev m))
  /\ (inRange m ->
      forall i text,
        inRange (Selected m i) /\ inRange (SelectByIndex m i)
        /\ inRange (SelectByOption m text))
  /\ options (SelectNext m) = options m
  /\ options (SelectPrev m) = options m
  /\ forall i text,
       options (Selected m i) = options m
       /\ options (SelectByIndex m i) = options m
       /\ options (SelectByOption m text) = options m.
Proof.
  intro H0. split; [|split; [|split; [|split]]].
  - intro Hne. split;
      [now apply SelectNext_inRange|now apply SelectPrev_inRange].
  - intros Hr i text. split; [|split].
    + now apply (SelectByIndex_inRange m i).
    + now apply SelectByIndex_inRange.
    + now apply SelectByOption_inRange.
  - unfold SelectNext. destruct (_ >? 0); reflexivity.
  - unfold SelectPrev. destruct (_ >? 0); reflexivity.
  - intros i text. split; [|split].
    + unfold Selected. destruct (_ && _); reflexivity.
    + unfold SelectByIndex. destruct (_ && _); reflexivity.
    + unfold SelectByOption. destruct (firstMatch _ _ _); reflexivity.
Qed.

(** X21. On a selection that is on an option, [SelectNext] moves one down
    and wraps from the last option to the first, [SelectPrev] moves one
    up and wraps from the first to the last, and each undoes the other. *)
Theorem SelectNext_SelectPrev_inverse (m : Menu) :
  inRange m ->
  selected (SelectNext m)
  = (if selected m =? len (options m) - 1 then 0 else selected m + 1)
  /\ selected (SelectPrev m)
     = (if selected m =? 0 then len (options m) - 1 else selected m - 1)
  /\ SelectPrev (SelectNext m) = m
  /\ SelectNext (SelectPrev m) = m.
Proof.
  unfold inRange. intro Hr.
  assert (Hnext : Z.rem (selected m + 1) (len (options m))
                  = if selected m =? len (options m) - 1 then 0
                    else selected m + 1).
  { destruct (Z.eqb_spec (selected m) (len (options m) - 1)) as [E | E].
    - replace (selected m + 1) with (len (options m)) by lia.
      apply Z.rem_same. lia.
    - apply Z.rem_small. lia. }
  assert (Hprev : Z.rem (selected m - 1 + len (options m)) (len (options m))
                  = if selected m =? 0 then len (options m) - 1
                    else selected m - 1).
  { destruct (Z.eqb_spec (selected m) 0) as [E | E].
    - replace (selected m - 1 + len (options m)) with (len (options m) - 1)
        by lia.
      apply Z.rem_small. lia.
    - replace (selected m - 1 + len (options m))
        with (selected m - 1 + 1 * len (options m)) by lia.
      rewrite Z.rem_add by nia. apply Z.rem_small. lia. }
  assert (Hpos : (len (options m) >? 0) = true) by lia.
  assert (Hn : SelectNext m = setSelected m
            (if selected m =? len (options m) - 1 then 0 else selected m + 1))
    by (unfold SelectNext; now rewrite Hpos, Hnext).
  assert (Hp : SelectPrev m = setSelected m
            (if selected m =? 0 then len (options m) - 1 else selected m - 1))
    by (unfold SelectPrev; now rewrite Hpos, Hprev).
  split; [now rewrite Hn|]. split; [now rewrite Hp|]. split.
  - rewrite Hn. unfold SelectPrev. cbn [setSelected options selected].
    rewrite Hpos. transitivity (setSelected m (selected m));
      [|apply setSelected_same].
    unfold setSelected.
    cbn [Component title options descriptions selected prefix selectedPrefix
         titleStyle optionStyle selectedStyle descStyle].
    f_equal.
    destruct (Z.eqb_spec (selected m) (len (options m) - 1)) as [E | E].
    + rewrite Z.rem_small by lia. lia.
    + replace (selected m + 1 - 1 + len (options m))
        with (selected m + 1 * len (options m)) by lia.
      rewrite Z.rem_add by nia. apply Z.rem_small. lia.
  - rewrite Hp. unfold SelectNext. cbn [setSelected options selected].
    rewrite Hpos. transitivity (setSelected m (selected m));
      [|apply setSelected_same].
    unfold setSelected.
    cbn [Component title options descriptions selected prefix selectedPrefix
         titleStyle optionStyle selectedStyle descStyle].
    f_equal.
    destruct (Z.eqb_spec (selected m) 0) as [E | E].
    + replace (len (options m) - 1 + 1) with (len (options m)) by lia.
      rewrite Z.rem_same by lia. lia.
    + rewrite Z.rem_small by lia. lia.
Qed.

(** X22. [SelectByOption] selects the first option equal to the text, so
    that [GetSelectedOption] returns the text; a text that is not an
    option leaves the menu as it is. *)
Theorem SelectByOption_selects_first_match (m : Menu) (text : gostring) :
  (In text (options m) ->
   GetSelectedOption (SelectByOption m text) = text
   /\ inRange (SelectByOption m text)
   /\ forall k, 0 <= k < GetSelected (SelectByOption m text) ->
                nth (Z.to_nat k) (options m) [] <> text)
  /\ (~ In text (options m) -> SelectByOption m text = m).
Proof.
  pose proof (firstMatch_spec (options m) text 0) as Hs.
  unfold SelectByOption, GetSelectedOption, GetSelected, inRange.
  destruct (firstMatch 0 (options m) text) as [j|]; split.
  - intros _. destruct Hs as (_ & Hj & Hnth & Hfirst). rewrite Nat.sub_0_r in *.
    cbn [setSelected selected options].
    replace (Z.of_nat j >=? 0) with true by lia.
    replace (Z.of_nat j <? len (options m)) with true
      by (symmetry; apply Z.ltb_lt; unfold len; lia).
    cbn [andb]. rewrite Nat2Z.id. split; [exact Hnth|].
    split; [unfold len; lia|]. intros k Hk. apply Hfirst. lia.
  - intro Hn. destruct Hs as (_ & Hj & Hnth & _). exfalso. apply Hn.
    rewrite <- Hnth. now apply nth_In.
  - intro Hin. contradiction.
  - reflexivity.
Qed.




End MenuFacts.

Lemma selection_stays_in_range_witness :
  Menu.options (Menu.SelectNext (Menu.Options Menu.NewMenu [gostr "a"; gostr "b"]))
  = [gostr "a"; gostr "b"].
Proof.
  apply (selection_stays_in_range
           (Menu.Options Menu.NewMenu [gostr "a"; gostr "b"])).
  cbn. lia.
Defined.

Lemma SelectNext_SelectPrev_inverse_witness :
  Menu.SelectPrev
    (Menu.SelectNext (Menu.Options Menu.NewMenu [gostr "a"; gostr "b"]))
  = Menu.Options Menu.NewMenu [gostr "a"; gostr "b"].
Proof.
  apply (SelectNext_SelectPrev_inverse
           (Menu.Options Menu.NewMenu [gostr "a"; gostr "b"])).
  unfold inRange. cbn. lia.
Defined.

Lemma SelectByOption_selects_first_match_witness :
  Menu.GetSelectedOption
    (Menu.SelectByOption (Menu.Options Menu.NewMenu [gostr "a"; gostr "b"])
                         (gostr "b"))
  = gostr "b".
Proof.
  apply (SelectByOption_selects_first_match
           (Menu.Options Menu.NewMenu [gostr "a"; gostr "b"]) (gostr "b")).
  right. left. reflexivity.
Defined.


(** ** What the sizes do not change *)
Section SizeFacts.
Context {cond : runewidth.Condition}.
Import runewidth color style core Box.

(** The two frames the package offers are made of one-column runes. *)
Lemma builtin_chars_unit : unitChars DefaultBoxChars /\ unitChars ClassicBoxChars.
Proof.
  split; unfold unitChars, unitRune; cbn;
    repeat split; try discriminate;
    try (apply RuneWidth_box; lia); apply RuneWidth_ascii; lia.
Qed.

Lemma mapM_Some {A B : Type} (f : A -> option B) (g : A -> B) (l : list A) :
  (forall a, f a = Some (g a)) -> mapM f l = Some (map g l).
Proof.
  intro H. induction l as [|a l IH]; [reflexivity|].
  cbn [mapM map]. now rewrite H, IH.
Qed.

(** X24. A box without border ignores its height: whatever height is
    set, [Render] gives the same result; and the content is never cut,
    every line of the wrapped content is in the output. *)
Theorem borderless_box_ignores_height (b : Box.Box) (theme : Theme) (h : Z) :
  border b = false ->
  Render (BoxHeight b h) theme = Render b theme
  /\ (IsHidden (Component b) = false -> 0 <= padding b ->
      exists rows,
        Render b theme
        = Some (strings.Join
                  ((if nonempty (title b)
                    then [Sprint (orTheme (titleStyle b) (style.Header theme))
                                 (title b)]
                    else []) ++ rows) [lineFeed])
        /\ rows
           = map (fun line =>
                    blanks (padding b)
                    ++ Sprint (orTheme (contentStyle b) (style.Primary theme))
                              line)
                 (wrapContent b
                    (if resolvedWidth b - padding b * 2 <=? 0
                     then resolvedWidth b
                     else resolvedWidth b - padding b * 2))).
Proof.
  intro Hb. split.
  - unfold Render, BoxHeight, withComponent.
    cbn [Component border IsHidden GetWidth GetHeight core.Height hidden width
         height]. rewrite Hb. cbn [negb]. reflexivity.
  - intros Hvis Hp. unfold Render. rewrite Hvis, Hb. cbn [negb].
    fold (resolvedWidth b). cbv zeta. unfold renderWithoutBorder. cbv zeta.
    set (ls := wrapContent b _).
    rewrite (mapM_Some _
               (fun line =>
                  blanks (padding b)
                  ++ Sprint (orTheme (contentStyle b) (style.Primary theme))
                            line))
      by (intro line; now rewrite Repeat_space by exact Hp).
    cbn [bind]. eexists. split; reflexivity.
Qed.

End SizeFacts.

Lemma borderless_box_ignores_height_witness :
  Box.Render (Box.BoxHeight
                (Box.Border (Box.Content Box.NewBox (gostr "hello")) false) 7)
             style.NewTheme
  = Box.Render (Box.Border (Box.Content Box.NewBox (gostr "hello")) false)
               style.NewTheme.
Proof.
  apply (borderless_box_ignores_height
           (Box.Border (Box.Content Box.NewBox (gostr "hello")) false)
           style.NewTheme 7).
  reflexivity.
Defined.
